(** * Slug lifecycle of the product catalog

    A shallow embedding of the slug-related code of the catalog
    application: [AffiliateManager] (affiliate_manager.py) and the part of
    [DataHandler] (data_handler.py) it relies on.

    Text is modelled with [string]; a character [ascii] stands for the
    code point of the same number (U+0000 .. U+00FF), and the Python
    string methods are given on that range.  The data file is the list
    of its rows as they were written, a cell being a text or empty
    ([None]); reading it follows [pd.read_csv] with its default options:
    the texts of missing values are read as null (pandas' NaN), and a
    column holds text unless all its cells are read as numbers or as
    booleans.  The product table is the data frame that [load_products]
    returns; where a column is read as numbers, its cells stand for the
    numbers read. *)

From Stdlib Require Import Strings.String Strings.Ascii Lists.List Arith.PeanoNat Bool.Bool.
From Stdlib Require Import Numbers.DecimalString Init.Decimal.
From stdpp Require Import gmap strings list fin_maps.
From Stdlib Require Import Lia.

Local Open Scope string_scope.
Local Open Scope nat_scope.

(** ** Python string primitives used by the slug code *)

Module PyStr.

Definition code (c : ascii) : nat := nat_of_ascii c.

Definition in_range (lo hi : nat) (c : ascii) : bool :=
  (lo <=? code c) && (code c <=? hi).

(** [str.isspace] of one character; it is also the class [\s] of [re]
    on text patterns. *)
Definition isspace (c : ascii) : bool :=
  in_range 9 13 c || in_range 28 32 c || (code c =? 133) || (code c =? 160).

(** [str.lower] of one character: A-Z, and the Latin-1 capitals
    U+00C0 .. U+00DE without the multiplication sign U+00D7. *)
Definition lower_char (c : ascii) : ascii :=
  if in_range 65 90 c || (in_range 192 222 c && negb (code c =? 215))
  then ascii_of_nat (code c + 32)
  else c.

Fixpoint map (f : ascii -> ascii) (s : string) : string :=
  match s with
  | EmptyString => EmptyString
  | String c r => String (f c) (map f r)
  end.

Fixpoint filter (p : ascii -> bool) (s : string) : string :=
  match s with
  | EmptyString => EmptyString
  | String c r => if p c then String c (filter p r) else filter p r
  end.

Fixpoint all (p : ascii -> bool) (s : string) : bool :=
  match s with
  | EmptyString => true
  | String c r => p c && all p r
  end.

(** [s.lower()] *)
Definition lower (s : string) : string := map lower_char s.

Definition is_empty (s : string) : bool :=
  match s with EmptyString => true | String _ _ => false end.

(** [s.lstrip(chars)] and [s.rstrip(chars)], the set of characters
    given as a predicate. *)
Fixpoint lstrip (p : ascii -> bool) (s : string) : string :=
  match s with
  | EmptyString => EmptyString
  | String c r => if p c then lstrip p r else s
  end.

Fixpoint rstrip (p : ascii -> bool) (s : string) : string :=
  match s with
  | EmptyString => EmptyString
  | String c r =>
      let r' := rstrip p r in
      if is_empty r' && p c then EmptyString else String c r'
  end.

(** [s.strip(chars)] *)
Definition strip (p : ascii -> bool) (s : string) : string :=
  rstrip p (lstrip p s).

(** [re.sub(r'C+', rep, s)] for a character class [C]: every maximal
    run of characters of the class is replaced by [rep].  [in_run]
    tells that the previous character belonged to the class. *)
Fixpoint sub_runs (p : ascii -> bool) (rep : string) (in_run : bool)
         (s : string) : string :=
  match s with
  | EmptyString => EmptyString
  | String c r =>
      if p c then
        if in_run then sub_runs p rep true r
        else rep ++ sub_runs p rep true r
      else String c (sub_runs p rep false r)
  end.

Definition re_sub_plus (p : ascii -> bool) (rep s : string) : string :=
  sub_runs p rep false s.

(** [re.sub(r'[^...]', '', s)]: the characters outside the class are
    deleted. *)
Definition re_sub_not (p : ascii -> bool) (s : string) : string :=
  filter p s.

(** The anchor [$] of [re] without MULTILINE: at the end of the text,
    or just before a line feed that ends the text. *)
Definition at_dollar (s : string) : bool :=
  match s with
  | EmptyString => true
  | String c EmptyString => code c =? 10  (* "\n" *)
  | _ => false
  end.

(** [re.match(r'^C+$', s)] for a character class [C]. *)
Fixpoint re_match_plus_dollar (p : ascii -> bool) (s : string) : bool :=
  match s with
  | EmptyString => false
  | String c r => p c && (at_dollar r || re_match_plus_dollar p r)
  end.

(** [s.startswith(pre)] *)
Definition startswith (pre s : string) : bool := String.prefix pre s.

(** [s.endswith(suf)] *)
Fixpoint endswith (suf s : string) : bool :=
  String.eqb s suf
  || match s with
     | EmptyString => false
     | String _ r => endswith suf r
     end.

(** [sub in s] *)
Fixpoint contains (sub s : string) : bool :=
  String.prefix sub s
  || match s with
     | EmptyString => false
     | String _ r => contains sub r
     end.

(** [str(i)] of a natural number, as in an f-string. *)
Definition of_nat (n : nat) : string :=
  NilEmpty.string_of_uint (Nat.to_uint n).

Definition hyphen : ascii := "-"%char.
Definition is_hyphen (c : ascii) : bool := Ascii.eqb c hyphen.

Definition line_feed : ascii := "010"%char.
Definition is_line_feed (c : ascii) : bool := code c =? 10.

(** First character test, false on the empty text. *)
Definition head_is (p : ascii -> bool) (s : string) : bool :=
  match s with
  | EmptyString => false
  | String c _ => p c
  end.

(** The last character is in the set, on a text that is not empty. *)
Fixpoint last_is (p : ascii -> bool) (s : string) : bool :=
  match s with
  | EmptyString => false
  | String c r => if is_empty r then p c else last_is p r
  end.

End PyStr.

(** ** data_handler.py *)

Module DataHandler.

(** One row of the data file or of the product table.  [record_id] is a
    string after [astype(str)]; the other cells are text or null. *)
Record Product := mkProduct {
  record_id : string;
  Name : option string;
  Description : option string;
  Images : option string;
  URL_Slug : option string
}.

(** The files the handler works on: the rows of the data file as they
    were written, the backups by file name (the most recently written
    first), whether writing the data file succeeds, and the clock: the
    readings [datetime.now()] gives, formatted to the second, and how
    many were taken. *)
Record Disk := mkDisk {
  data_file : list Product;
  backups : list (string * list Product);
  writable : bool;
  clock : nat -> string;
  clock_reads : nat
}.

(** *** Reading the file: [pd.read_csv] with its default options *)

(** The texts read as a missing value. *)
Definition na_values : list string :=
  [ ""; "#N/A"; "#N/A N/A"; "#NA"; "-1.#IND"; "-1.#QNAN"; "-NaN"; "-nan";
    "1.#IND"; "1.#QNAN"; "<NA>"; "N/A"; "NA"; "NULL"; "NaN"; "None";
    "n/a"; "nan"; "null" ].

Definition is_na (s : string) : bool := existsb (String.eqb s) na_values.

(** A cell as it is read: null when the field is missing or one of the
    texts above. *)
Definition read_cell (cell : option string) : option string :=
  match cell with
  | Some s => if is_na s then None else Some s
  | None => None
  end.

(** A row as it is read; [astype(str)] turns a null record_id into the
    text "nan". *)
Definition read_row (p : Product) : Product :=
  {| record_id := if is_na (record_id p) then "nan" else record_id p;
     Name := read_cell (Name p);
     Description := read_cell (Description p);
     Images := read_cell (Images p);
     URL_Slug := read_cell (URL_Slug p) |}.

Definition is_ascii_space (c : ascii) : bool :=
  PyStr.in_range 9 13 c || (PyStr.code c =? 32).
Definition is_sign (c : ascii) : bool := (PyStr.code c =? 43) || (PyStr.code c =? 45).
Definition is_dec_digit (c : ascii) : bool := PyStr.in_range 48 57 c.
Definition is_exp (c : ascii) : bool := (PyStr.code c =? 101) || (PyStr.code c =? 69).
Definition is_dot (c : ascii) : bool := PyStr.code c =? 46.

(** The digits at the head of a text: how many, and what follows. *)
Fixpoint skip_digits (s : string) : nat * string :=
  match s with
  | EmptyString => (0, s)
  | String c r =>
      if is_dec_digit c
      then let '(n, t) := skip_digits r in (S n, t)
      else (0, s)
  end.

Definition skip_sign (s : string) : string :=
  match s with
  | String c r => if is_sign c then r else s
  | EmptyString => s
  end.

Definition skip_fraction (s : string) : nat * string :=
  match s with
  | String c r => if is_dot c then skip_digits r else (0, s)
  | EmptyString => (0, s)
  end.

(** An exponent is consumed only when it has digits. *)
Definition skip_exponent (s : string) : string :=
  match s with
  | String c r =>
      if is_exp c
      then let '(n, t) := skip_digits (skip_sign r) in
           if n =? 0 then s else t
      else s
  | EmptyString => s
  end.

Definition infinity_words : list string :=
  [ "inf"; "+inf"; "-inf"; "infinity"; "+infinity"; "-infinity" ].

(** The text is read as a number: spaces, a sign, digits with an
    optional decimal point, an optional exponent, spaces; or a word for
    infinity in any case. *)
Definition number_text (s : string) : bool :=
  let s1 := skip_sign (PyStr.lstrip is_ascii_space s) in
  let '(whole, s2) := skip_digits s1 in
  let '(fraction, s3) := skip_fraction s2 in
  (negb (whole + fraction =? 0)
   && PyStr.is_empty (PyStr.lstrip is_ascii_space (skip_exponent s3)))
  || existsb (String.eqb (PyStr.lower s)) infinity_words.

(** The text is read as a boolean. *)
Definition bool_text (s : string) : bool :=
  existsb (String.eqb s) [ "True"; "TRUE"; "true"; "False"; "FALSE"; "false" ].

(** The column 'URL Slug' of the frame read holds text (its cells are
    [str] or null) unless every cell that is not null is read as a
    number, or every such cell as a boolean; a column without any such
    cell is a column of floats.  A file without rows gives an empty
    column of text. *)
Definition slug_column_is_text (rows : list Product) : bool :=
  let cells := List.map (fun p => read_cell (URL_Slug p)) rows in
  match rows with
  | [] => true
  | _ =>
      existsb (fun cell => match cell with
                           | Some s => negb (number_text s)
                           | None => false
                           end) cells
      && existsb (fun cell => match cell with
                              | Some s => negb (bool_text s)
                              | None => false
                              end) cells
  end.

(** [load_products]: the file is read, and the rows whose record_id is
    empty or the text of a null are removed. *)
Definition keeps_row (p : Product) : bool :=
  negb (String.eqb (record_id p) "") && negb (String.eqb (record_id p) "nan").

Definition load_products (d : Disk) : list Product :=
  List.filter keeps_row (List.map read_row (data_file d)).

(** [create_backup] followed by [cleanup_old_backups]: the data file is
    copied to a file named after the second of the clock, in place of a
    copy made in the same second, and the ten copies written last are
    kept. *)
Definition create_backup (d : Disk) : Disk :=
  let timestamp := clock d (clock_reads d) in
  let backup_filename := "products_backup_" ++ timestamp ++ ".csv" in
  let others :=
    List.filter (fun b => negb (String.eqb (fst b) backup_filename)) (backups d) in
  {| data_file := data_file d;
     backups := firstn 10 ((backup_filename, data_file d) :: others);
     writable := writable d;
     clock := clock d;
     clock_reads := S (clock_reads d) |}.

(** [save_products]: backup first, then the write of the frame; an error
    of the write gives [False]. *)
Definition save_products (d : Disk) (df : list Product) : bool * Disk :=
  let d1 := create_backup d in
  if writable d1
  then (true, {| data_file := df;
                 backups := backups d1;
                 writable := writable d1;
                 clock := clock d1;
                 clock_reads := clock_reads d1 |})
  else (false, d1).

Definition set_slug (p : Product) (new_slug : string) : Product :=
  {| record_id := record_id p;
     Name := Name p;
     Description := Description p;
     Images := Images p;
     URL_Slug := Some new_slug |}.

(** [df.loc[mask, 'URL Slug'] = new_slug] *)
Definition assign_slug (mask : Product -> bool) (new_slug : string)
           (df : list Product) : list Product :=
  List.map (fun p => if mask p then set_slug p new_slug else p) df.

(** [update_product_slug]; the ValueError of an unknown id is caught
    and gives [False]. *)
Definition update_product_slug (d : Disk) (rid new_slug : string) : bool * Disk :=
  let df := load_products d in
  let mask := fun p => String.eqb (record_id p) rid in
  if negb (existsb mask df) then (false, d)
  else save_products d (assign_slug mask new_slug df).

(** [Series.dropna()] *)
Fixpoint dropna (cells : list (option string)) : list string :=
  match cells with
  | [] => []
  | Some s :: r => s :: dropna r
  | None :: r => dropna r
  end.

(** Truth value of an optional text argument ([if x:]). *)
Definition truthy (x : option string) : bool :=
  match x with
  | Some s => negb (PyStr.is_empty s)
  | None => false
  end.

(** [check_slug_uniqueness]; the accessor [.str] raises on a column
    that does not hold text, and the error is caught and gives [False]. *)
Definition check_slug_uniqueness (d : Disk) (slug : string)
           (exclude_record_id : option string) : bool :=
  let df := load_products d in
  let df :=
    match exclude_record_id with
    | Some e =>
        if truthy exclude_record_id
        then List.filter (fun p => negb (String.eqb (record_id p) e)) df
        else df
    | None => df
    end in
  if slug_column_is_text (data_file d) then
    let existing_slugs := List.map PyStr.lower (dropna (List.map URL_Slug df)) in
    negb (existsb (String.eqb (PyStr.lower slug)) existing_slugs)
  else false.

End DataHandler.

(** ** affiliate_manager.py *)

Module AffiliateManager.
Import DataHandler.

Definition is_slug_char (c : ascii) : bool :=
  PyStr.in_range 97 122 c || PyStr.in_range 48 57 c || PyStr.is_hyphen c.

(** [clean_slug] *)
Definition clean_slug (slug : string) : string :=
  if PyStr.is_empty slug then ""
  else
    let s := PyStr.strip PyStr.isspace (PyStr.lower slug) in
    let s := PyStr.re_sub_plus PyStr.isspace "-" s in
    let s := PyStr.re_sub_not is_slug_char s in
    let s := PyStr.re_sub_plus PyStr.is_hyphen "-" s in
    PyStr.strip PyStr.is_hyphen s.

Definition reserved_words : list string :=
  [ "admin"; "api"; "www"; "mail"; "ftp"; "localhost"; "root";
    "slicewp"; "affiliate"; "wp-admin"; "wp-content"; "wp-includes" ].

Definition msg_empty := "Slug cannot be empty".
Definition msg_short := "Slug must be at least 3 characters long".
Definition msg_long := "Slug cannot be longer than 100 characters".
Definition msg_chars :=
  "Slug can only contain lowercase letters, numbers, and hyphens".
Definition msg_edge := "Slug cannot start or end with a hyphen".
Definition msg_double := "Slug cannot contain consecutive hyphens".
Definition msg_reserved (slug : string) :=
  "'" ++ slug ++ "' is a reserved word and cannot be used".
Definition msg_valid := "Valid slug".

(** [slug in reserved_words] *)
Definition is_reserved (slug : string) : bool :=
  existsb (String.eqb slug) reserved_words.

(** [validate_slug] *)
Definition validate_slug (slug : string) : bool * string :=
  if PyStr.is_empty slug then (false, msg_empty)
  else if String.length slug <? 3 then (false, msg_short)
  else if 100 <? String.length slug then (false, msg_long)
  else if negb (PyStr.re_match_plus_dollar is_slug_char slug) then (false, msg_chars)
  else if PyStr.startswith "-" slug || PyStr.endswith "-" slug then (false, msg_edge)
  else if PyStr.contains "--" slug then (false, msg_double)
  else if is_reserved slug then (false, msg_reserved slug)
  else (true, msg_valid).

(** [check_slug_availability] *)
Definition check_slug_availability (d : Disk) (slug : string)
           (exclude_record_id : option string) : bool :=
  check_slug_uniqueness d slug exclude_record_id.

Definition numbered_slug (suggested_slug : string) (i : nat) : string :=
  suggested_slug ++ "-" ++ PyStr.of_nat i.

(** The loop [for i in range(2, 100)] of [suggest_slug], over the
    numbers still to try: the first free numbered slug, if any. *)
Fixpoint try_numbers (d : Disk) (suggested_slug : string) (numbers : list nat)
  : option string :=
  match numbers with
  | [] => None
  | i :: rest =>
      if check_slug_availability d (numbered_slug suggested_slug i) None
      then Some (numbered_slug suggested_slug i)
      else try_numbers d suggested_slug rest
  end.

(** [suggest_slug]; [mmdd] is the clock's [strftime("%m%d")] and a null
    name is [None]. *)
Definition suggest_slug (d : Disk) (mmdd : string) (product_name : option string)
  : string :=
  match product_name with
  | None => ""
  | Some name =>
      if PyStr.is_empty name then ""
      else
        let suggested_slug := clean_slug name in
        if String.length suggested_slug <? 3 then ""
        else if check_slug_availability d suggested_slug None then suggested_slug
        else
          match try_numbers d suggested_slug (seq 2 98) with
          | Some numbered => numbered
          | None => suggested_slug ++ "-" ++ mmdd
          end
  end.

(** One item of a bulk update: the dictionary's [record_id] and
    [new_slug], [None] when the key is missing or null. *)
Record Update := mkUpdate {
  u_record_id : option string;
  u_new_slug : option string
}.

Record Result := mkResult {
  r_record_id : option string;
  r_success : bool;
  r_error : option string
}.

Definition err_missing := "Missing record_id or new_slug".
Definition err_invalid (message : string) := "Invalid slug: " ++ message.
Definition err_taken := "Slug already exists".
Definition err_database := "Failed to update database".

(** The body of the loop of [bulk_update_slugs]. *)
Definition update_one (d : Disk) (u : Update) : Result * Disk :=
  match u_record_id u, u_new_slug u with
  | Some rid, Some new_slug =>
      if negb (truthy (Some rid)) || negb (truthy (Some new_slug))
      then (mkResult (u_record_id u) false (Some err_missing), d)
      else
        let '(is_valid, message) := validate_slug new_slug in
        if negb is_valid
        then (mkResult (Some rid) false (Some (err_invalid message)), d)
        else if negb (check_slug_availability d new_slug (Some rid))
        then (mkResult (Some rid) false (Some err_taken), d)
        else
          let '(success, d') := update_product_slug d rid new_slug in
          (mkResult (Some rid) success
                    (if success then None else Some err_database), d')
  | _, _ => (mkResult (u_record_id u) false (Some err_missing), d)
  end.

(** [bulk_update_slugs] *)
Fixpoint bulk_update_slugs (d : Disk) (updates : list Update)
  : list Result * Disk :=
  match updates with
  | [] => ([], d)
  | u :: rest =>
      let '(r, d1) := update_one d u in
      let '(rs, d2) := bulk_update_slugs d1 rest in
      (r :: rs, d2)
  end.

Record Suggestion := mkSuggestion {
  s_record_id : string;
  s_product_name : option string;
  s_current_slug : option string;
  s_suggested_slug : string;
  s_reason : string
}.

(** The dictionary [analysis]; [completion_rate], a float computed
    from the counters at the end, is left out. *)
Record Analysis := mkAnalysis {
  total_products : nat;
  products_with_slugs : nat;
  products_without_slugs : nat;
  duplicate_slugs : nat;
  invalid_slugs : nat;
  suggestions : list Suggestion
}.

Definition add_suggestion (a : Analysis) (s : Suggestion) : Analysis :=
  {| total_products := total_products a;
     products_with_slugs := products_with_slugs a;
     products_without_slugs := products_without_slugs a;
     duplicate_slugs := duplicate_slugs a;
     invalid_slugs := invalid_slugs a;
     suggestions := suggestions a ++ [s] |}.

Definition incr_without (a : Analysis) : Analysis :=
  {| total_products := total_products a;
     products_with_slugs := products_with_slugs a;
     products_without_slugs := products_without_slugs a + 1;
     duplicate_slugs := duplicate_slugs a;
     invalid_slugs := invalid_slugs a;
     suggestions := suggestions a |}.

Definition incr_with (a : Analysis) : Analysis :=
  {| total_products := total_products a;
     products_with_slugs := products_with_slugs a + 1;
     products_without_slugs := products_without_slugs a;
     duplicate_slugs := duplicate_slugs a;
     invalid_slugs := invalid_slugs a;
     suggestions := suggestions a |}.

Definition add_duplicates (a : Analysis) (n : nat) : Analysis :=
  {| total_products := total_products a;
     products_with_slugs := products_with_slugs a;
     products_without_slugs := products_without_slugs a;
     duplicate_slugs := duplicate_slugs a + n;
     invalid_slugs := invalid_slugs a;
     suggestions := suggestions a |}.

Definition incr_invalid (a : Analysis) : Analysis :=
  {| total_products := total_products a;
     products_with_slugs := products_with_slugs a;
     products_without_slugs := products_without_slugs a;
     duplicate_slugs := duplicate_slugs a;
     invalid_slugs := invalid_slugs a + 1;
     suggestions := suggestions a |}.

(** The slug cell as the loop sees it: [None] when it is null or the
    empty text. *)
Definition slug_of (p : Product) : option string :=
  match URL_Slug p with
  | Some s => if PyStr.is_empty s then None else Some s
  | None => None
  end.

(** The duplicate check on [slug_counts]. *)
Definition count_slug (slug : string) (st : Analysis * gmap string nat)
  : Analysis * gmap string nat :=
  let '(a, slug_counts) := st in
  match slug_counts !! slug with
  | Some n =>
      let slug_counts := <[slug := n + 1]> slug_counts in
      if n + 1 =? 2
      then (add_duplicates a 2, slug_counts)
      else (add_duplicates a 1, slug_counts)
  | None => (a, <[slug := 1]> slug_counts)
  end.

(** The body of the loop of [analyze_slug_performance]. *)
Definition analyze_row (d : Disk) (mmdd : string)
           (st : Analysis * gmap string nat) (product : Product)
  : Analysis * gmap string nat :=
  match slug_of product with
  | None =>
      let '(a, slug_counts) := st in
      let a := incr_without a in
      let suggested := suggest_slug d mmdd (Name product) in
      if negb (PyStr.is_empty suggested)
      then (add_suggestion a
              (mkSuggestion (record_id product) (Name product) None suggested
                            "Missing slug"), slug_counts)
      else (a, slug_counts)
  | Some slug =>
      let '(a, slug_counts) := st in
      let '(a, slug_counts) := count_slug slug (incr_with a, slug_counts) in
      let '(is_valid, message) := validate_slug slug in
      if negb is_valid
      then
        let a := incr_invalid a in
        let suggested := suggest_slug d mmdd (Name product) in
        if negb (PyStr.is_empty suggested)
        then (add_suggestion a
                (mkSuggestion (record_id product) (Name product) (Some slug)
                              suggested (err_invalid message)), slug_counts)
        else (a, slug_counts)
      else (a, slug_counts)
  end.

(** [analyze_slug_performance] *)
Definition analyze_slug_performance (d : Disk) (mmdd : string)
           (df : list Product) : Analysis :=
  fst (fold_left (analyze_row d mmdd) df
                 (mkAnalysis (List.length df) 0 0 0 0 [], ∅)).

End AffiliateManager.

(** ** The specification's vocabulary *)

Module SlugSpec.
Import PyStr DataHandler AffiliateManager.

(** A canonical token: slug characters only, no hyphen at either end,
    no two hyphens in a row. *)
Definition canonical (s : string) : Prop :=
  all is_slug_char s = true
  /\ head_is is_hyphen s = false
  /\ last_is is_hyphen s = false
  /\ contains "--" s = false.

(** The rule a slug violates, as the specification names them. *)
Inductive SlugError :=
| EmptyInput
| TooShort
| TooLong
| InvalidCharacters
| LeadingOrTrailingHyphen
| ConsecutiveHyphens
| ReservedWord.

(** The text matches [[a-z0-9-]+] exactly. *)
Definition charset_exact (slug : string) : bool :=
  negb (is_empty slug) && all is_slug_char slug.

(** The six checks of the specification, in its order; the first rule
    violated, if any. *)
Definition first_violation (slug : string) : option SlugError :=
  if is_empty slug then Some EmptyInput
  else if String.length slug <? 3 then Some TooShort
  else if 100 <? String.length slug then Some TooLong
  else if negb (charset_exact slug) then Some InvalidCharacters
  else if startswith "-" slug || endswith "-" slug then Some LeadingOrTrailingHyphen
  else if contains "--" slug then Some ConsecutiveHyphens
  else if existsb (String.eqb slug) reserved_words then Some ReservedWord
  else None.

(** The reason the validator gives for each rule. *)
Definition reason_of (e : SlugError) (slug : string) : string :=
  match e with
  | EmptyInput => msg_empty
  | TooShort => msg_short
  | TooLong => msg_long
  | InvalidCharacters => msg_chars
  | LeadingOrTrailingHyphen => msg_edge
  | ConsecutiveHyphens => msg_double
  | ReservedWord => msg_reserved slug
  end.

Definition validate_spec (slug : string) : bool * string :=
  match first_violation slug with
  | Some e => (false, reason_of e slug)
  | None => (true, msg_valid)
  end.

(** The text "abc" followed by a line feed. *)
Definition abc_newline : string := "abc" ++ String line_feed "".

(** The set of assigned slugs of the specification: every product
    but the excluded one gives the lower-cased text of its URL Slug,
    when that is neither null nor empty. *)
Definition assigned_slugs (table : list Product) (exclude_id : option string)
  : gset string :=
  list_to_set
    (flat_map
       (fun p =>
          if bool_decide (exclude_id = Some (record_id p)) then []
          else match URL_Slug p with
               | Some s => if is_empty s then [] else [lower s]
               | None => []
               end)
       table).

Definition is_available_spec (table : list Product) (slug : string)
           (exclude_id : option string) : bool :=
  bool_decide (lower slug ∉ assigned_slugs table exclude_id).

Definition product_with_slug (rid slug : string) : Product :=
  mkProduct rid None None None (Some slug).

Definition two_digits (n : nat) : string :=
  if n <? 10 then "0" ++ of_nat n else of_nat n.

(** A clock for the examples: ten o'clock, and a second later at every
    reading of the hour that follows. *)
Definition example_clock (n : nat) : string :=
  "20240101_10" ++ two_digits ((n / 60) mod 60) ++ two_digits (n mod 60).

(** A store with the given rows, no backup yet and a file that can be
    written. *)
Definition stored (rows : list Product) : Disk :=
  mkDisk rows [] true example_clock 0.

(** A catalog in which no product has a slug yet. *)
Definition disk_no_slugs : Disk :=
  stored [mkProduct "1" (Some "Hat") None None None].

(** The products of the specification's example: "shoes" and
    "shoes-2" are taken. *)
Definition disk_shoes : Disk :=
  stored [product_with_slug "1" "shoes"; product_with_slug "2" "shoes-2"].



(** The outcome of one item of a bulk update, as the specification
    names them. *)
Inductive Outcome :=
| Success
| MissingField
| InvalidSlug (reason : string)
| SlugTaken
| PersistenceError.

(** A field is absent when its key is missing or null, or its text is
    empty. *)
Definition absent (x : option string) : bool := negb (truthy x).

(** The classification of the specification, by precedence. *)
Definition classify (d : Disk) (u : Update) : Outcome :=
  match u_record_id u, u_new_slug u with
  | Some rid, Some new_slug =>
      if absent (Some rid) || absent (Some new_slug) then MissingField
      else if negb (fst (validate_slug new_slug))
      then InvalidSlug (snd (validate_slug new_slug))
      else if negb (check_slug_availability d new_slug (Some rid)) then SlugTaken
      else if fst (update_product_slug d rid new_slug) then Success
      else PersistenceError
  | _, _ => MissingField
  end.



(** The batch of the specification's example. *)
Definition batch_example : list Update :=
  [ mkUpdate (Some "1") (Some "valid-one"); mkUpdate (Some "2") (Some "") ].

(** How many of the rows carry exactly the slug [slug]. *)
Definition occurrences (slug : string) (rows : list Product) : nat :=
  List.length (List.filter (fun q => bool_decide (slug_of q = Some slug)) rows).

(** The product's slug is also the slug of another product of [rows]. *)
Definition shares_slug (rows : list Product) (p : Product) : bool :=
  match slug_of p with
  | Some slug => 2 <=? occurrences slug rows
  | None => false
  end.

(** The number of products whose slug is shared. *)
Definition shared_count (rows : list Product) : nat :=
  List.length (List.filter (shares_slug rows) rows).

(** The slug values of the rows, and the sum, over the values carried by
    two rows or more, of the number of rows that carry them. *)
Definition slug_values (rows : list Product) : gset string :=
  list_to_set (omap slug_of rows).

Definition shared_sum (rows : list Product) : nat :=
  sum_list_with
    (fun v => if 2 <=? occurrences v rows then occurrences v rows else 0)
    (elements (slug_values rows)).

(** What the duplicate counter gains on a slug seen [seen] times
    before. *)
Definition duplicate_gain (seen : nat) : nat :=
  match seen with
  | 0 => 0
  | 1 => 2
  | _ => 1
  end.

(** The state of the loop of [analyze_slug_performance] on [df] after
    the rows [rows]. *)
Definition loop_state (d : Disk) (mmdd : string) (df rows : list Product)
  : Analysis * gmap string nat :=
  fold_left (analyze_row d mmdd) rows
            (mkAnalysis (List.length df) 0 0 0 0 [], ∅).

Definition products_with_slugs_example : list Product :=
  [ product_with_slug "1" "a"; product_with_slug "2" "a";
    product_with_slug "3" "b"; product_with_slug "4" "a";
    product_with_slug "5" ""; product_with_slug "6" "A" ].

(** The rows the code compares against. *)
Definition compared (d : Disk) (exclude_record_id : option string) (p : Product)
  : Prop :=
  In p (load_products d)
  /\ (truthy exclude_record_id = true -> exclude_record_id <> Some (record_id p)).

(** The slug is free: available with no product excluded. *)
Definition free (d : Disk) (slug : string) : bool :=
  check_slug_availability d slug None.


(** [slug_counts] holds the number of rows seen with each slug. *)
Definition counts_of (rows : list Product) (m : gmap string nat) : Prop :=
  forall slug,
    m !! slug = if occurrences slug rows =? 0 then None
                else Some (occurrences slug rows).

End SlugSpec.

(** ** data_handler.py, the remaining functions *)

Module DataHandlerRest.
Import DataHandler AffiliateManager.

(** [DataHandler.validate_slug], the handler's own format check. *)
Definition validate_slug (slug : string) : bool * string :=
  if PyStr.is_empty slug then (false, msg_empty)
  else if negb (PyStr.re_match_plus_dollar is_slug_char slug) then (false, msg_chars)
  else if PyStr.startswith "-" slug || PyStr.endswith "-" slug then (false, msg_edge)
  else if PyStr.contains "--" slug then (false, msg_double)
  else (true, msg_valid).




End DataHandlerRest.

(** ** affiliate_manager.py, the remaining functions *)

Module AffiliateManagerRest.
Import DataHandler AffiliateManager.

Definition is_slash (c : ascii) : bool := Ascii.eqb c "/"%char.

(** [__init__]: the base URL the manager keeps. *)
Definition init (base_url : string) : string := PyStr.rstrip is_slash base_url.

(** Truth value of a cell of the table: a null cell is a NaN, which is
    true; a text is true when it is not empty. *)
Definition cell_is_true (cell : option string) : bool :=
  match cell with
  | Some s => negb (PyStr.is_empty s)
  | None => true
  end.

(** [str(cell)]: the text of a NaN is "nan". *)
Definition str_of_cell (cell : option string) : string :=
  match cell with
  | Some s => s
  | None => "nan"
  end.

(** [clean_slug] on a cell of the table. *)
Definition clean_slug_cell (cell : option string) : string :=
  if negb (cell_is_true cell) then "" else clean_slug (str_of_cell cell).

(** [generate_affiliate_url]; [base_url] is [self.base_url], the slug is
    a text or a cell of the table, the affiliate id is optional. *)
Definition generate_affiliate_url (base_url : string) (product_slug : option string)
           (affiliate_id : option string) : option string :=
  if negb (cell_is_true product_slug) then None
  else
    let clean := clean_slug_cell product_slug in
    match affiliate_id with
    | Some a =>
        if truthy affiliate_id
        then Some (base_url ++ "/slicewp_affiliate/" ++ a ++ "/" ++ clean ++ "/")
        else Some (base_url ++ "/" ++ clean ++ "/")
    | None => Some (base_url ++ "/" ++ clean ++ "/")
    end.



Record ProductConfig := mkProductConfig {
  c_id : string;
  c_name : option string;
  c_slug : string;
  c_direct_url : string;
  c_affiliate_url_template : string;
  c_commission_rate : nat
}.

Record Config := mkConfig {
  cfg_plugin : string;
  cfg_base_url : string;
  cfg_commission_rate : nat;
  cfg_products : list ProductConfig
}.

(** The loop of [export_slicewp_config]: a product with a slug, neither
    null nor empty, gives one entry. *)
Fixpoint export_products (base_url : string) (base_commission_rate : nat)
         (df : list Product) : list ProductConfig :=
  match df with
  | [] => []
  | product :: rest =>
      match slug_of product with
      | Some slug =>
          {| c_id := record_id product;
             c_name := Name product;
             c_slug := slug;
             c_direct_url := base_url ++ "/" ++ slug ++ "/";
             c_affiliate_url_template :=
               base_url ++ "/slicewp_affiliate/{affiliate_id}/" ++ slug ++ "/";
             c_commission_rate := base_commission_rate |}
          :: export_products base_url base_commission_rate rest
      | None => export_products base_url base_commission_rate rest
      end
  end.

(** [export_slicewp_config] *)
Definition export_slicewp_config (base_url : string) (df : list Product)
           (base_commission_rate : nat) : Config :=
  {| cfg_plugin := "SliceWP";
     cfg_base_url := base_url;
     cfg_commission_rate := base_commission_rate;
     cfg_products := export_products base_url base_commission_rate df |}.

End AffiliateManagerRest.

(** ** app.py, the callers of the slug code *)

Module App.
Import DataHandler AffiliateManager.

(** The loop of the button "Auto-Generate Missing Slugs": one update per
    product without a slug whose name gives a suggestion. *)
Fixpoint auto_generate_updates (d : Disk) (mmdd : string) (df : list Product)
  : list Update :=
  match df with
  | [] => []
  | product :: rest =>
      match slug_of product with
      | None =>
          let suggested_slug := suggest_slug d mmdd (Name product) in
          if negb (PyStr.is_empty suggested_slug)
          then mkUpdate (Some (record_id product)) (Some suggested_slug)
               :: auto_generate_updates d mmdd rest
          else auto_generate_updates d mmdd rest
      | Some _ => auto_generate_updates d mmdd rest
      end
  end.

(** The button itself: the batch is applied when it is not empty; the
    results and the number of successes. *)
Definition auto_generate (d : Disk) (mmdd : string) (df : list Product)
  : list Result * nat * Disk :=
  let updates := auto_generate_updates d mmdd df in
  match updates with
  | [] => ([], 0, d)
  | _ =>
      let '(results, d') := bulk_update_slugs d updates in
      (results, List.length (List.filter r_success results), d')
  end.

(** What the button "Save Slug" tells the user. *)
Inductive SaveMessage :=
| SlugUpdated
| FailedToUpdate
| SlugExists
| InvalidSlugMessage (validation_message : string)
| PleaseEnterSlug.

(** The button "Save Slug" for the selected product. *)
Definition save_slug (d : Disk) (rid new_slug : string) : SaveMessage * Disk :=
  if negb (PyStr.is_empty new_slug) then
    let '(is_valid, validation_message) := validate_slug new_slug in
    if is_valid then
      if check_slug_availability d new_slug (Some rid) then
        let '(success, d') := update_product_slug d rid new_slug in
        if success then (SlugUpdated, d') else (FailedToUpdate, d')
      else (SlugExists, d)
    else (InvalidSlugMessage validation_message, d)
  else (PleaseEnterSlug, d).

End App.

(** ** Vocabulary of the further properties *)

Module MoreSpec.
Import PyStr DataHandler AffiliateManager SlugSpec.

(** The checks of the validator that do not look at the characters:
    emptiness, length, reserved words. *)
Definition validate_length_reserved (slug : string) : bool * string :=
  if is_empty slug then (false, msg_empty)
  else if String.length slug <? 3 then (false, msg_short)
  else if 100 <? String.length slug then (false, msg_long)
  else if is_reserved slug then (false, msg_reserved slug)
  else (true, msg_valid).

Definition is_digit (c : ascii) : bool := in_range 48 57 c.

(** A text of decimal digits, as [strftime("%m%d")] gives. *)
Definition digits (s : string) : Prop :=
  all is_digit s = true /\ s <> "".

(** What "Save Slug" tells the user for an outcome; it asks for a slug
    where the bulk update reports a missing field. *)
Definition message_of_outcome (o : Outcome) : App.SaveMessage :=
  match o with
  | Success => App.SlugUpdated
  | MissingField => App.PleaseEnterSlug
  | InvalidSlug reason => App.InvalidSlugMessage reason
  | SlugTaken => App.SlugExists
  | PersistenceError => App.FailedToUpdate
  end.

(** The name of the backup made at a time, and the backups of another
    name. *)
Definition backup_filename (timestamp : string) : string :=
  "products_backup_" ++ timestamp ++ ".csv".

Definition other_backups (name : string) (copies : list (string * list Product))
  : list (string * list Product) :=
  List.filter (fun b => negb (String.eqb (fst b) name)) copies.

(** A clock that is read twice within the same second. *)
Definition stopped_clock (n : nat) : string := "20240101_100000".

Definition disk_stopped_clock : Disk :=
  mkDisk [product_with_slug "1" "shoes"; product_with_slug "2" "shoes-2"]
         [] true stopped_clock 0.

(** The mask of the rows with a given id. *)
Definition has_id (rid : string) (p : Product) : bool := String.eqb (record_id p) rid.

(** The product has a slug, neither null nor empty. *)
Definition has_slug (p : Product) : bool :=
  match slug_of p with
  | Some _ => true
  | None => false
  end.

(** The product has a slug and the validator rejects it. *)
Definition slug_invalid (p : Product) : bool :=
  match slug_of p with
  | Some slug => negb (fst (validate_slug slug))
  | None => false
  end.

(** The suggestion the slug analysis records for one product, if any. *)
Definition row_suggestion (d : Disk) (mmdd : string) (p : Product) : list Suggestion :=
  let suggested := suggest_slug d mmdd (Name p) in
  match slug_of p with
  | None =>
      if is_empty suggested then []
      else [mkSuggestion (record_id p) (Name p) None suggested "Missing slug"]
  | Some slug =>
      if fst (validate_slug slug) then []
      else if is_empty suggested then []
      else [mkSuggestion (record_id p) (Name p) (Some slug) suggested
                         (err_invalid (snd (validate_slug slug)))]
  end.

End MoreSpec.

(** ** Facts about the string primitives *)

Module PyStrFacts.
Import PyStr.

Lemma is_hyphen_spec c : is_hyphen c = true <-> c = hyphen.
Proof. unfold is_hyphen. apply Ascii.eqb_eq. Qed.

Lemma is_hyphen_dec c : is_hyphen c = if ascii_dec hyphen c then true else false.
Proof.
  destruct (ascii_dec hyphen c) as [<-|Hne]; [reflexivity|].
  destruct (is_hyphen c) eqn:E; [|reflexivity].
  apply is_hyphen_spec in E. congruence.
Qed.

Lemma prefix_cons a s1 b s2 :
  String.prefix (String a s1) (String b s2)
  = if ascii_dec a b then String.prefix s1 s2 else false.
Proof. reflexivity. Qed.

Lemma prefix_empty s : String.prefix "" s = true.
Proof. destruct s; reflexivity. Qed.

Lemma startswith_hyphen s : startswith "-" s = head_is is_hyphen s.
Proof.
  destruct s as [|c r]; [reflexivity|].
  unfold startswith, head_is. change "-" with (String hyphen "").
  rewrite prefix_cons, is_hyphen_dec, prefix_empty. reflexivity.
Qed.

Lemma endswith_cons suf c r :
  endswith suf (String c r) = String.eqb (String c r) suf || endswith suf r.
Proof. destruct r; reflexivity. Qed.

Lemma eqb_single c r d :
  String.eqb (String c r) (String d "") = Ascii.eqb c d && is_empty r.
Proof.
  change (String.eqb (String c r) (String d ""))
    with (if Ascii.eqb c d then String.eqb r "" else false).
  destruct (Ascii.eqb c d); [|reflexivity]. destruct r; reflexivity.
Qed.

Lemma endswith_hyphen_cons c r :
  endswith "-" (String c r) = (is_hyphen c && is_empty r) || endswith "-" r.
Proof.
  rewrite endswith_cons. change "-" with (String hyphen "") at 1.
  rewrite eqb_single. reflexivity.
Qed.

Lemma endswith_hyphen_nil : endswith "-" "" = false.
Proof. reflexivity. Qed.

Lemma contains_cons sub c r :
  contains sub (String c r) = String.prefix sub (String c r) || contains sub r.
Proof. destruct r; reflexivity. Qed.

Lemma contains_double_cons c r :
  contains "--" (String c r)
  = (is_hyphen c && head_is is_hyphen r) || contains "--" r.
Proof.
  rewrite contains_cons. f_equal.
  change "--" with (String hyphen (String hyphen "")).
  rewrite prefix_cons, is_hyphen_dec.
  destruct (ascii_dec hyphen c); [|reflexivity].
  destruct r as [|c2 r2]; [reflexivity|].
  rewrite prefix_cons, prefix_empty. unfold head_is.
  rewrite is_hyphen_dec. reflexivity.
Qed.

Lemma contains_double_nil : contains "--" "" = false.
Proof. reflexivity. Qed.

Lemma all_app p s t : all p (s ++ t) = all p s && all p t.
Proof.
  induction s as [|c r IH]; simpl; [reflexivity|].
  rewrite IH. apply andb_assoc.
Qed.

Lemma map_id_on p f s :
  (forall c, p c = true -> f c = c) -> all p s = true -> map f s = s.
Proof.
  intros Hf. induction s as [|c r IH]; simpl; [reflexivity|].
  intros [Hc Hr]%andb_true_iff. rewrite (Hf c Hc), (IH Hr). reflexivity.
Qed.

Lemma filter_id p s : all p s = true -> filter p s = s.
Proof.
  induction s as [|c r IH]; simpl; [reflexivity|].
  intros [Hc Hr]%andb_true_iff. rewrite Hc, (IH Hr). reflexivity.
Qed.

Lemma all_filter p s : all p (filter p s) = true.
Proof.
  induction s as [|c r IH]; simpl; [reflexivity|].
  destruct (p c) eqn:E; simpl; [rewrite E|]; exact IH.
Qed.

Lemma all_impl (p q : ascii -> bool) s :
  (forall c, p c = true -> q c = true) -> all p s = true -> all q s = true.
Proof.
  intros H. induction s as [|c r IH]; simpl; [reflexivity|].
  intros [Hc Hr]%andb_true_iff. rewrite (H c Hc), (IH Hr). reflexivity.
Qed.

(** *** Stripping *)

Lemma lstrip_id p s : head_is p s = false -> lstrip p s = s.
Proof. destruct s as [|c r]; simpl; [reflexivity|]. intros ->. reflexivity. Qed.

Lemma head_lstrip p s : head_is p (lstrip p s) = false.
Proof.
  induction s as [|c r IH]; simpl; [reflexivity|].
  destruct (p c) eqn:E; [exact IH|]. simpl. exact E.
Qed.

Lemma all_lstrip q p s : all q s = true -> all q (lstrip p s) = true.
Proof.
  induction s as [|c r IH]; simpl; [reflexivity|].
  intros H. destruct (p c); [|exact H].
  apply andb_true_iff in H. apply IH, H.
Qed.

Lemma all_rstrip q p s : all q s = true -> all q (rstrip p s) = true.
Proof.
  induction s as [|c r IH]; simpl; [reflexivity|].
  intros [Hc Hr]%andb_true_iff.
  destruct (is_empty (rstrip p r) && p c); simpl; [reflexivity|].
  rewrite Hc, (IH Hr). reflexivity.
Qed.

Lemma endswith_hyphen_last s : endswith "-" s = last_is is_hyphen s.
Proof.
  induction s as [|c r IH]; [reflexivity|].
  rewrite endswith_hyphen_cons, IH. simpl.
  destruct r; simpl.
  - rewrite andb_true_r, orb_false_r. reflexivity.
  - rewrite andb_false_r. reflexivity.
Qed.

Lemma rstrip_id p s : last_is p s = false -> rstrip p s = s.
Proof.
  induction s as [|c r IH]; simpl; [reflexivity|].
  destruct r as [|e r'].
  - simpl. intros ->. reflexivity.
  - intros H. rewrite (IH H). reflexivity.
Qed.

Lemma last_rstrip p s : last_is p (rstrip p s) = false.
Proof.
  induction s as [|c r IH]; simpl; [reflexivity|].
  destruct (is_empty (rstrip p r)) eqn:E; simpl.
  - destruct (p c) eqn:Hc; simpl; [reflexivity|].
    rewrite E. exact Hc.
  - rewrite E. exact IH.
Qed.

Lemma head_rstrip q p s : head_is q s = false -> head_is q (rstrip p s) = false.
Proof.
  destruct s as [|c r]; simpl; [reflexivity|].
  intros H. destruct (is_empty (rstrip p r) && p c); simpl; [reflexivity|exact H].
Qed.

Lemma all_not_head p s :
  all (fun c => negb (p c)) s = true -> head_is p s = false.
Proof.
  destruct s as [|c r]; simpl; [reflexivity|].
  intros [H _]%andb_true_iff. apply negb_true_iff, H.
Qed.

Lemma all_not_last p s :
  all (fun c => negb (p c)) s = true -> last_is p s = false.
Proof.
  induction s as [|c r IH]; simpl; [reflexivity|].
  intros [Hc Hr]%andb_true_iff.
  destruct (is_empty r); [apply negb_true_iff, Hc|apply IH, Hr].
Qed.

Lemma strip_id p s : head_is p s = false -> last_is p s = false -> strip p s = s.
Proof.
  intros Hh Hl. unfold strip. rewrite (lstrip_id _ _ Hh). apply rstrip_id, Hl.
Qed.

(** *** Replacing runs *)

Lemma sub_runs_id p rep b s :
  all (fun c => negb (p c)) s = true -> sub_runs p rep b s = s.
Proof.
  revert b. induction s as [|c r IH]; intros b; simpl; [reflexivity|].
  intros [Hc Hr]%andb_true_iff. apply negb_true_iff in Hc.
  rewrite Hc, (IH false Hr). reflexivity.
Qed.

Lemma all_sub_runs q p rep b s :
  all q rep = true -> all q s = true -> all q (sub_runs p rep b s) = true.
Proof.
  intros Hrep. revert b. induction s as [|c r IH]; intros b; simpl; [reflexivity|].
  intros [Hc Hr]%andb_true_iff.
  destruct (p c).
  - destruct b; [apply IH, Hr|].
    rewrite all_app, Hrep. apply IH, Hr.
  - simpl. rewrite Hc. apply IH, Hr.
Qed.

Lemma collapse_hyphens_id s :
  contains "--" s = false ->
  sub_runs is_hyphen "-" false s = s
  /\ (head_is is_hyphen s = false -> sub_runs is_hyphen "-" true s = s).
Proof.
  induction s as [|c r IH]; [split; reflexivity|].
  rewrite contains_double_cons.
  intros [Hcr Hr]%orb_false_iff. destruct (IH Hr) as [IH1 IH2].
  simpl. destruct (is_hyphen c) eqn:Hc.
  - simpl in Hcr. split; [|discriminate].
    apply is_hyphen_spec in Hc. subst c.
    rewrite (IH2 Hcr). reflexivity.
  - rewrite IH1. split; reflexivity.
Qed.

Lemma collapse_hyphens_single b s :
  contains "--" (sub_runs is_hyphen "-" b s) = false
  /\ (b = true -> head_is is_hyphen (sub_runs is_hyphen "-" b s) = false).
Proof.
  revert b. induction s as [|c r IH]; intros b; [split; reflexivity|].
  simpl. destruct (is_hyphen c) eqn:Hc.
  - destruct b; [apply IH|].
    destruct (IH true) as [IH1 IH2]. split; [|discriminate].
    change ("-" ++ sub_runs is_hyphen "-" true r)
      with (String hyphen (sub_runs is_hyphen "-" true r)).
    rewrite contains_double_cons, IH1, (IH2 eq_refl).
    rewrite andb_false_r. reflexivity.
  - destruct (IH false) as [IH1 _]. split.
    + rewrite contains_double_cons, Hc, IH1. reflexivity.
    + intros _. simpl. exact Hc.
Qed.

Lemma contains_double_lstrip p s :
  contains "--" s = false -> contains "--" (lstrip p s) = false.
Proof.
  induction s as [|c r IH]; [intros; reflexivity|].
  intros H. simpl. destruct (p c); [|exact H].
  rewrite contains_double_cons in H. apply orb_false_iff in H. apply IH, H.
Qed.

Lemma contains_double_rstrip p s :
  contains "--" s = false -> contains "--" (rstrip p s) = false.
Proof.
  induction s as [|c r IH]; [intros; reflexivity|].
  rewrite contains_double_cons. intros [Hcr Hr]%orb_false_iff.
  simpl. destruct (is_empty (rstrip p r) && p c); [reflexivity|].
  rewrite contains_double_cons, (IH Hr), orb_false_r.
  destruct (is_hyphen c); [|reflexivity]. simpl in *.
  apply head_rstrip, Hcr.
Qed.

End PyStrFacts.

(** ** Facts about the normalizer and the validator *)

Module SlugFacts.
Import PyStr PyStrFacts DataHandler AffiliateManager SlugSpec.

Lemma slug_char_lower c : is_slug_char c = true -> lower_char c = c.
Proof. destruct c as [[] [] [] [] [] [] [] []]; vm_compute; congruence. Qed.

Lemma slug_char_not_space c : is_slug_char c = true -> negb (isspace c) = true.
Proof. destruct c as [[] [] [] [] [] [] [] []]; vm_compute; congruence. Qed.

Lemma hyphen_slug_char c : is_hyphen c = true -> is_slug_char c = true.
Proof. intros ->%is_hyphen_spec. reflexivity. Qed.

Lemma clean_slug_canonical_id s : canonical s -> clean_slug s = s.
Proof.
  intros (Hall & Hh & Hl & Hd). unfold clean_slug.
  destruct (is_empty s) eqn:E; [destruct s; [reflexivity|discriminate]|].
  assert (Hns : all (fun c => negb (isspace c)) s = true)
    by (revert Hall; apply all_impl, slug_char_not_space).
  unfold lower. rewrite (map_id_on _ _ _ slug_char_lower Hall).
  rewrite (strip_id isspace s (all_not_head _ _ Hns) (all_not_last _ _ Hns)).
  unfold re_sub_plus, re_sub_not.
  rewrite (sub_runs_id _ _ _ _ Hns), (filter_id _ _ Hall).
  rewrite (proj1 (collapse_hyphens_id s Hd)).
  apply strip_id; assumption.
Qed.

Lemma clean_slug_is_canonical x : canonical (clean_slug x).
Proof.
  unfold clean_slug. destruct (is_empty x); [repeat split|].
  set (s := re_sub_not is_slug_char _).
  assert (Hs : all is_slug_char s = true) by apply all_filter.
  unfold re_sub_plus.
  set (t := sub_runs is_hyphen "-" false s).
  assert (Ht : all is_slug_char t = true)
    by (apply all_sub_runs; [reflexivity|exact Hs]).
  assert (Hd : contains "--" t = false) by apply collapse_hyphens_single.
  unfold canonical, strip. repeat split.
  - apply all_rstrip, all_lstrip, Ht.
  - apply head_rstrip, head_lstrip.
  - apply last_rstrip.
  - apply contains_double_rstrip, contains_double_lstrip, Hd.
Qed.

(** Away from a final line feed, [$] is the end of the text and the
    pattern is an exact match of the character class. *)
Lemma re_match_no_line_feed p s :
  last_is is_line_feed s = false ->
  re_match_plus_dollar p s = negb (is_empty s) && all p s.
Proof.
  induction s as [|c r IH]; [reflexivity|].
  destruct r as [|c2 r2].
  - intros _. simpl. destruct (p c); reflexivity.
  - intros H. change (last_is is_line_feed (String c (String c2 r2)))
      with (last_is is_line_feed (String c2 r2)) in H.
    change (re_match_plus_dollar p (String c (String c2 r2)))
      with (p c && (at_dollar (String c2 r2)
                    || re_match_plus_dollar p (String c2 r2))).
    rewrite (IH H).
    assert (Hd : at_dollar (String c2 r2) = false).
    { destruct r2; [|reflexivity]. exact H. }
    rewrite Hd. reflexivity.
Qed.

(** On such a text the validator applies the six checks of the
    specification, in order, with the reason of the first one violated. *)
Lemma validate_slug_six_checks s :
  last_is is_line_feed s = false -> validate_slug s = validate_spec s.
Proof.
  intros H. unfold validate_slug, validate_spec, first_violation, charset_exact.
  rewrite (re_match_no_line_feed _ _ H). unfold is_reserved.
  repeat match goal with |- context [if ?b then _ else _] => destruct b end;
    reflexivity.
Qed.

Lemma first_violation_none_canonical s :
  first_violation s = None -> canonical s.
Proof.
  unfold first_violation, charset_exact.
  destruct (is_empty s); [discriminate|].
  destruct (String.length s <? 3); [discriminate|].
  destruct (100 <? String.length s); [discriminate|].
  simpl. destruct (all is_slug_char s) eqn:Hall; [|discriminate]. simpl.
  destruct (startswith "-" s) eqn:Hs; [discriminate|].
  destruct (endswith "-" s) eqn:He; [discriminate|]. simpl.
  destruct (contains "--" s) eqn:Hc; [discriminate|]. intros _.
  rewrite startswith_hyphen in Hs. rewrite endswith_hyphen_last in He.
  repeat split; assumption.
Qed.

(** Accepted slugs that do not end in a line feed are canonical, hence
    left alone by the normalizer. *)
Lemma validate_ok_fixpoint s :
  last_is is_line_feed s = false ->
  fst (validate_slug s) = true -> clean_slug s = s.
Proof.
  intros H. rewrite (validate_slug_six_checks _ H). unfold validate_spec.
  destruct (first_violation s) eqn:E; [discriminate|]. intros _.
  apply clean_slug_canonical_id, first_violation_none_canonical, E.
Qed.

End SlugFacts.

(** ** Facts about the uniqueness index *)

Module IndexFacts.
Import PyStr PyStrFacts DataHandler AffiliateManager SlugSpec.

Lemma in_dropna s cells : In s (dropna cells) <-> In (Some s) cells.
Proof.
  induction cells as [|[t|] r IH]; simpl; [tauto| |].
  - rewrite IH. split; intros [H|H]; auto; left; congruence.
  - rewrite IH. split; [auto|]. intros [H|H]; [discriminate|exact H].
Qed.

Lemma load_products_id_not_empty d p :
  In p (load_products d) -> record_id p <> "".
Proof.
  unfold load_products. rewrite filter_In. intros [_ H].
  unfold keeps_row in H. apply andb_true_iff in H as [H _].
  apply negb_true_iff, String.eqb_neq in H. exact H.
Qed.

(** On a column that does not hold text the error of [.str] is caught
    and every slug is reported taken. *)
Lemma check_slug_uniqueness_not_text d slug ex :
  slug_column_is_text (data_file d) = false ->
  check_slug_uniqueness d slug ex = false.
Proof. intros H. unfold check_slug_uniqueness. rewrite H. reflexivity. Qed.

(** What [check_slug_uniqueness] computes on a column of text: a slug is
    taken when its lower-cased text is the lower-cased URL Slug, null
    apart, of a compared row. *)
Lemma check_slug_uniqueness_false d slug ex :
  slug_column_is_text (data_file d) = true ->
  (check_slug_uniqueness d slug ex = false <->
   exists p s, compared d ex p /\ URL_Slug p = Some s /\ lower s = lower slug).
Proof.
  intros Htext. unfold check_slug_uniqueness, compared. rewrite Htext.
  rewrite negb_false_iff, existsb_exists.
  split.
  - intros (x & Hx & E). apply String.eqb_eq in E.
    apply in_map_iff in Hx as (s0 & <- & Hs0).
    apply in_dropna, in_map_iff in Hs0 as (p & Hp & Hin).
    exists p, s0. split; [|auto].
    destruct ex as [e|]; [|split; [exact Hin|discriminate]].
    destruct (truthy (Some e)); [|split; [exact Hin|discriminate]].
    apply filter_In in Hin as [Hin Hne]. split; [exact Hin|].
    apply negb_true_iff, String.eqb_neq in Hne. intros _ [= Heq]. congruence.
  - intros (p & s0 & [Hin Hex] & Hs & E).
    exists (lower s0). split; [|apply String.eqb_eq; auto].
    apply in_map_iff. exists s0. split; [reflexivity|].
    apply in_dropna, in_map_iff. exists p. split; [exact Hs|].
    destruct ex as [e|]; [|exact Hin].
    destruct (truthy (Some e)); [|exact Hin].
    apply filter_In. split; [exact Hin|].
    apply negb_true_iff, String.eqb_neq. intros Heq.
    apply Hex; [reflexivity|congruence].
Qed.

Lemma read_cell_not_empty cell : read_cell cell <> Some "".
Proof.
  unfold read_cell. destruct cell as [s|]; [|discriminate].
  destruct (is_na s) eqn:E; [discriminate|]. intros [= ->]. discriminate.
Qed.

(** A slug of the table read is never the empty text. *)
Lemma load_products_slug_not_empty d p :
  In p (load_products d) -> URL_Slug p <> Some "".
Proof.
  unfold load_products. rewrite filter_In, in_map_iff.
  intros [(q & <- & _) _]. apply read_cell_not_empty.
Qed.

Lemma lower_empty s : lower s = "" -> s = "".
Proof. destruct s; [reflexivity|discriminate]. Qed.

Lemma elem_assigned_slugs table ex x :
  x ∈ assigned_slugs table ex <->
  exists p s, In p table /\ ex <> Some (record_id p)
              /\ URL_Slug p = Some s /\ s <> "" /\ lower s = x.
Proof.
  unfold assigned_slugs. rewrite elem_of_list_to_set, list_elem_of_In, in_flat_map.
  split.
  - intros (p & Hin & Hx). exists p.
    case_bool_decide as Hex; [destruct Hx|].
    destruct (URL_Slug p) as [s0|] eqn:Hs; [|destruct Hx].
    destruct s0 as [|c r]; [destruct Hx|].
    destruct Hx as [<-|[]]. exists (String c r). repeat split; auto; discriminate.
  - intros (p & s0 & Hin & Hex & Hs & Hne & <-). exists p. split; [exact Hin|].
    rewrite bool_decide_eq_false_2 by exact Hex. rewrite Hs.
    destruct s0; [congruence|]. left. reflexivity.
Qed.

(** On a column of text the code computes the availability of the
    specification. *)
Lemma check_slug_uniqueness_spec d slug ex :
  slug_column_is_text (data_file d) = true ->
  check_slug_uniqueness d slug ex = is_available_spec (load_products d) slug ex.
Proof.
  intros Htext. unfold is_available_spec.
  destruct (check_slug_uniqueness d slug ex) eqn:E; symmetry.
  - apply bool_decide_eq_true_2. rewrite elem_assigned_slugs.
    intros (p & s0 & Hin & Hex & Hs & _ & Hl).
    apply not_false_iff_true in E. apply E, (check_slug_uniqueness_false _ _ _ Htext).
    exists p, s0. repeat split; auto.
  - apply bool_decide_eq_false_2. intros Hn. apply Hn. clear Hn.
    apply (check_slug_uniqueness_false _ _ _ Htext) in E
      as (p & s0 & [Hin Hex] & Hs & Hl).
    apply elem_assigned_slugs. exists p, s0. repeat split; auto.
    + destruct ex as [e|]; [|discriminate].
      destruct e as [|c r]; [|apply Hex; reflexivity].
      intros [= Hid]. symmetry in Hid.
      exact (load_products_id_not_empty _ _ Hin Hid).
    + intros ->. exact (load_products_slug_not_empty _ _ Hin Hs).
Qed.

End IndexFacts.

(** ** Facts about the suggester *)

Module SuggestFacts.
Import PyStr DataHandler AffiliateManager SlugSpec.


Lemma try_numbers_some d base numbers x :
  try_numbers d base numbers = Some x ->
  exists i, In i numbers /\ x = numbered_slug base i /\ free d x = true.
Proof.
  unfold free. induction numbers as [|i rest IH]; simpl; [discriminate|].
  destruct (check_slug_availability d (numbered_slug base i) None) eqn:E.
  - intros [= <-]. exists i. auto.
  - intros H. destruct (IH H) as (k & Hk & Hx & Hf). exists k. auto.
Qed.



Lemma suggest_slug_unfold d mmdd name :
  suggest_slug d mmdd (Some name) =
  let base := clean_slug name in
  if String.length base <? 3 then ""
  else if free d base then base
  else match try_numbers d base (seq 2 98) with
       | Some numbered => numbered
       | None => base ++ "-" ++ mmdd
       end.
Proof.
  unfold suggest_slug, free. destruct name; reflexivity.
Qed.

End SuggestFacts.

(** ** Facts about the store and the bulk update *)

Module StoreFacts.
Import PyStr DataHandler AffiliateManager SlugSpec.

Lemma existsb_record_id d rid :
  existsb (fun p => String.eqb (record_id p) rid) (load_products d) = true <->
  exists p, In p (load_products d) /\ record_id p = rid.
Proof.
  rewrite existsb_exists. split; intros (p & Hin & H); exists p;
    (split; [exact Hin|]); apply String.eqb_eq; exact H.
Qed.

Lemma update_unknown d rid new_slug :
  (forall p, In p (load_products d) -> record_id p <> rid) ->
  update_product_slug d rid new_slug = (false, d).
Proof.
  intros H. unfold update_product_slug.
  destruct (existsb _ (load_products d)) eqn:E; [|reflexivity].
  apply existsb_record_id in E as (p & Hin & Hp). destruct (H p Hin Hp).
Qed.

Lemma update_known d rid new_slug :
  (exists p, In p (load_products d) /\ record_id p = rid) ->
  update_product_slug d rid new_slug
  = save_products d
      (assign_slug (fun p => String.eqb (record_id p) rid) new_slug
                   (load_products d)).
Proof.
  intros H. apply existsb_record_id in H. unfold update_product_slug.
  rewrite H. reflexivity.
Qed.


(** The write changes the data file or nothing but the backups and the
    clock. *)
Lemma save_products_result d df :
  save_products d df
  = (writable d,
     {| data_file := if writable d then df else data_file d;
        backups := backups (create_backup d);
        writable := writable d;
        clock := clock d;
        clock_reads := S (clock_reads d) |}).
Proof. destruct d as [rows copies [|] times reads]; reflexivity. Qed.









Lemma bulk_cons d u rest :
  bulk_update_slugs d (u :: rest)
  = (fst (update_one d u) :: fst (bulk_update_slugs (snd (update_one d u)) rest),
     snd (bulk_update_slugs (snd (update_one d u)) rest)).
Proof.
  simpl. destruct (update_one d u) as [r d1]. cbn [fst snd].
  destruct (bulk_update_slugs d1 rest) as [rs d2]. reflexivity.
Qed.





End StoreFacts.

(** ** Facts about the slug analysis *)

Module AnalysisFacts.
Import PyStr DataHandler AffiliateManager SlugSpec.

Lemma occurrences_snoc slug rows p :
  occurrences slug (rows ++ [p])
  = occurrences slug rows + (if bool_decide (slug_of p = Some slug) then 1 else 0).
Proof.
  unfold occurrences. rewrite List.filter_app, length_app. simpl.
  destruct (bool_decide (slug_of p = Some slug)); reflexivity.
Qed.

Lemma occurrences_cons slug q m :
  occurrences slug (q :: m)
  = (if bool_decide (slug_of q = Some slug) then 1 else 0) + occurrences slug m.
Proof.
  unfold occurrences. simpl.
  destruct (bool_decide (slug_of q = Some slug)); reflexivity.
Qed.

Lemma length_filter_cons (f : Product -> bool) q m :
  List.length (List.filter f (q :: m))
  = (if f q then 1 else 0) + List.length (List.filter f m).
Proof. simpl. destruct (f q); reflexivity. Qed.

(** Among any rows [m], appending a row with slug [slug] to [rows]
    makes shared exactly the rows with that slug, when it was there
    once. *)
Lemma shares_snoc_filter rows p slug m :
  slug_of p = Some slug ->
  List.length (List.filter (shares_slug (rows ++ [p])) m)
  = List.length (List.filter (shares_slug rows) m)
    + (if occurrences slug rows =? 1 then occurrences slug m else 0).
Proof.
  intros Hp. induction m as [|q m IH].
  - simpl. destruct (occurrences slug rows =? 1); reflexivity.
  - rewrite !length_filter_cons, IH, occurrences_cons.
    generalize (List.length (List.filter (shares_slug rows) m)).
    generalize (occurrences slug m). intros om n.
    unfold shares_slug. destruct (slug_of q) as [t|] eqn:Hq.
    + rewrite occurrences_snoc, Hp.
      destruct (decide (slug = t)) as [<-|Hne].
      * rewrite !bool_decide_eq_true_2 by reflexivity.
        destruct (occurrences slug rows) as [|[|k]]; simpl; lia.
      * rewrite !bool_decide_eq_false_2 by congruence.
        rewrite Nat.add_0_r.
        destruct (2 <=? occurrences t rows);
          destruct (occurrences slug rows =? 1); lia.
    + rewrite bool_decide_eq_false_2 by discriminate.
      destruct (occurrences slug rows =? 1); lia.
Qed.

Lemma shared_count_snoc_slug rows p slug :
  slug_of p = Some slug ->
  shared_count (rows ++ [p])
  = shared_count rows + duplicate_gain (occurrences slug rows).
Proof.
  intros Hp. unfold shared_count.
  rewrite List.filter_app, length_app, (shares_snoc_filter rows p slug rows Hp).
  simpl. unfold shares_slug at 2. rewrite Hp, occurrences_snoc, Hp.
  rewrite bool_decide_eq_true_2 by reflexivity.
  destruct (occurrences slug rows) as [|[|k]]; simpl; lia.
Qed.

Lemma shares_snoc_none rows p q :
  slug_of p = None -> shares_slug (rows ++ [p]) q = shares_slug rows q.
Proof.
  intros Hp. unfold shares_slug. destruct (slug_of q) as [t|]; [|reflexivity].
  rewrite occurrences_snoc, Hp, bool_decide_eq_false_2 by discriminate.
  rewrite Nat.add_0_r. reflexivity.
Qed.

Lemma shared_count_snoc_none rows p :
  slug_of p = None -> shared_count (rows ++ [p]) = shared_count rows.
Proof.
  intros Hp. unfold shared_count. rewrite List.filter_app, length_app. simpl.
  unfold shares_slug at 2. rewrite Hp. simpl. rewrite Nat.add_0_r.
  f_equal. apply List.filter_ext. intros q. apply shares_snoc_none, Hp.
Qed.

(** Counting rows by slug value: the rows whose slug satisfies [g] are,
    value by value, the occurrences of the values that satisfy [g]. *)
Lemma sum_single (c : string -> nat) s D :
  NoDup D -> s ∈ D ->
  sum_list_with (fun v => if bool_decide (Some s = Some v) then c v else 0) D = c s.
Proof.
  induction 1 as [|v D Hv Hnd IH]; [intros []%not_elem_of_nil|].
  simpl. intros [->|Hs]%elem_of_cons.
  - rewrite bool_decide_eq_true_2 by reflexivity.
    assert (E : sum_list_with
                  (fun w => if bool_decide (Some v = Some w) then c w else 0) D = 0).
    { clear IH Hnd. induction D as [|w D IHD]; [reflexivity|]. simpl.
      rewrite bool_decide_eq_false_2.
      - apply IHD. intros H. apply Hv. right. exact H.
      - intros [= ->]. apply Hv. left. }
    rewrite E. lia.
  - rewrite bool_decide_eq_false_2; [apply IH, Hs|].
    intros [= ->]. contradiction.
Qed.

Lemma sum_list_with_plus (f g : string -> nat) D :
  sum_list_with (fun v => f v + g v) D = sum_list_with f D + sum_list_with g D.
Proof. induction D as [|v D IH]; simpl; [reflexivity|]. rewrite IH. lia. Qed.

Lemma sum_list_with_ext (f g : string -> nat) D :
  (forall v, f v = g v) -> sum_list_with f D = sum_list_with g D.
Proof. intros H. induction D as [|v D IH]; simpl; [reflexivity|]. rewrite IH, H. reflexivity. Qed.

Lemma count_by_value (g : string -> bool) D rows :
  NoDup D ->
  (forall p s, In p rows -> slug_of p = Some s -> s ∈ D) ->
  List.length
    (List.filter (fun p => match slug_of p with Some s => g s | None => false end) rows)
  = sum_list_with (fun v => if g v then occurrences v rows else 0) D.
Proof.
  intros Hnd. induction rows as [|p rows IH]; intros Hin.
  - clear. simpl. induction D as [|v D IHD]; simpl; [reflexivity|].
    rewrite <- IHD. destruct (g v); reflexivity.
  - rewrite length_filter_cons, IH by (intros q s Hq; apply Hin; right; exact Hq).
    rewrite (sum_list_with_ext
               (fun v => if g v then occurrences v (p :: rows) else 0)
               (fun v => (if bool_decide (slug_of p = Some v)
                          then (if g v then 1 else 0) else 0)
                         + (if g v then occurrences v rows else 0))).
    2:{ intros v. rewrite occurrences_cons.
        destruct (g v), (bool_decide (slug_of p = Some v)); reflexivity. }
    rewrite sum_list_with_plus. f_equal.
    destruct (slug_of p) as [s|] eqn:Hp.
    + rewrite (sum_single (fun v => if g v then 1 else 0) s D Hnd); [reflexivity|].
      apply (Hin p s); [left; reflexivity|exact Hp].
    + clear. induction D as [|v D IHD]; [reflexivity|exact IHD].
Qed.

Lemma shared_count_sum rows : shared_count rows = shared_sum rows.
Proof.
  unfold shared_count, shared_sum.
  rewrite <- (count_by_value (fun v => 2 <=? occurrences v rows)
                 (elements (slug_values rows)) rows).
  - f_equal.
  - apply NoDup_elements.
  - intros p s Hin Hp. apply elem_of_elements. unfold slug_values.
    apply elem_of_list_to_set, list_elem_of_omap. exists p.
    split; [apply list_elem_of_In; exact Hin|exact Hp].
Qed.

(** The effect of the loop body on the counter and on [slug_counts]. *)
Lemma analyze_row_none d mmdd a m p :
  slug_of p = None ->
  duplicate_slugs (fst (analyze_row d mmdd (a, m) p)) = duplicate_slugs a
  /\ snd (analyze_row d mmdd (a, m) p) = m.
Proof.
  intros Hp. unfold analyze_row. rewrite Hp.
  destruct (negb (is_empty (suggest_slug d mmdd (Name p)))); split; reflexivity.
Qed.

Lemma analyze_row_some d mmdd a m p slug :
  slug_of p = Some slug ->
  duplicate_slugs (fst (analyze_row d mmdd (a, m) p))
  = duplicate_slugs a
    + match m !! slug with Some n => if n + 1 =? 2 then 2 else 1 | None => 0 end
  /\ snd (analyze_row d mmdd (a, m) p)
     = <[slug := match m !! slug with Some n => n + 1 | None => 1 end]> m.
Proof.
  intros Hp. unfold analyze_row. rewrite Hp. unfold count_slug.
  destruct (validate_slug slug) as [v msg].
  destruct (m !! slug) as [n|]; [destruct (n + 1 =? 2)|];
    destruct v; cbn [negb];
    try destruct (negb (is_empty (suggest_slug d mmdd (Name p))));
    cbn; split; auto; lia.
Qed.

Lemma loop_state_snoc d mmdd df rows p :
  loop_state d mmdd df (rows ++ [p])
  = analyze_row d mmdd (loop_state d mmdd df rows) p.
Proof. unfold loop_state. rewrite fold_left_app. reflexivity. Qed.

Lemma loop_invariant d mmdd df rows :
  counts_of rows (snd (loop_state d mmdd df rows))
  /\ duplicate_slugs (fst (loop_state d mmdd df rows)) = shared_count rows.
Proof.
  induction rows as [|p rows [IHm IHd]] using rev_ind.
  - split; [intros slug; reflexivity|reflexivity].
  - rewrite loop_state_snoc.
    destruct (loop_state d mmdd df rows) as [a m]. cbn [fst snd] in *.
    destruct (slug_of p) as [slug|] eqn:Hp.
    + destruct (analyze_row_some d mmdd a m p slug Hp) as [Hd Hm].
      rewrite Hd, Hm, IHd, (shared_count_snoc_slug rows p slug Hp).
      pose proof (IHm slug) as Hs. split.
      * intros t. rewrite occurrences_snoc, Hp.
        destruct (decide (slug = t)) as [<-|Hne].
        -- rewrite lookup_insert_eq, bool_decide_eq_true_2 by reflexivity.
           rewrite Hs.
           destruct (occurrences slug rows) as [|k]; simpl; [reflexivity|].
           replace (k + 1) with (S k) by lia. reflexivity.
        -- rewrite lookup_insert_ne by exact Hne.
           rewrite bool_decide_eq_false_2 by congruence.
           rewrite Nat.add_0_r. apply IHm.
      * rewrite Hs. f_equal.
        destruct (occurrences slug rows) as [|[|k]]; simpl; try reflexivity.
        rewrite Nat.add_1_r. reflexivity.
    + destruct (analyze_row_none d mmdd a m p Hp) as [Hd Hm].
      rewrite Hd, Hm, IHd, (shared_count_snoc_none rows p Hp). split; [|reflexivity].
      intros t. rewrite occurrences_snoc, Hp.
      rewrite bool_decide_eq_false_2 by discriminate.
      rewrite Nat.add_0_r. apply IHm.
Qed.

End AnalysisFacts.

(** ** The claims *)

Import PyStr PyStrFacts DataHandler AffiliateManager SlugSpec.
Import SlugFacts IndexFacts SuggestFacts StoreFacts AnalysisFacts.

(** C1. The validator is meant to apply the six checks in order and to
    accept a slug only when it matches [[a-z0-9-]+] exactly; the text
    "abc" followed by a line feed violates rule 3 of the specification,
    yet [validate_slug] accepts it, because [$] also matches before a
    final line feed.  The examples of the claim hold: "ab" is too short
    and a slug of 101 characters is too long. *)
Theorem validate_slug_accepts_final_line_feed :
  validate_slug abc_newline = (true, msg_valid)
  /\ first_violation abc_newline = Some InvalidCharacters
  /\ validate_slug "ab" = (false, msg_short)
  /\ validate_slug (String.concat "" (repeat "a" 101)) = (false, msg_long).
Proof. repeat split; vm_compute; reflexivity. Qed.

(** C6. Normalization is idempotent: normalizing a normalized text
    changes nothing. *)
Theorem clean_slug_idempotent (x : string) :
  clean_slug (clean_slug x) = clean_slug x.
Proof. apply clean_slug_canonical_id, clean_slug_is_canonical. Qed.

(** C7. A slug the validator accepts should be a fixpoint of the
    normalizer; the text "abc" followed by a line feed is accepted by
    [validate_slug] and normalized to "abc", a different text. *)
Theorem validated_slug_not_fixpoint :
  fst (validate_slug abc_newline) = true
  /\ clean_slug abc_newline = "abc"
  /\ clean_slug abc_newline <> abc_newline.
Proof. repeat split; vm_compute; congruence. Qed.


(** C3. The availability of the specification is true when no product
    holds the slug.  On a catalog in which no product has a slug yet the
    column 'URL Slug' is read as a column of floats, [.str] raises, the
    error is caught, and [check_slug_uniqueness] answers [False] for the
    slug "hat", while the set of assigned slugs of the specification is
    empty. *)
Theorem check_slug_uniqueness_fails_without_slugs :
  check_slug_uniqueness disk_no_slugs "hat" None = false
  /\ assigned_slugs (load_products disk_no_slugs) None = ∅
  /\ is_available_spec (load_products disk_no_slugs) "hat" None = true.
Proof.
  split; [reflexivity|]. split; [reflexivity|].
  apply bool_decide_eq_true_2. rewrite elem_assigned_slugs.
  intros (p & s & [<-|[]] & _ & Hs & _). discriminate.
Qed.













(** C10. When no product of the table has the given id,
    [update_product_slug] returns [False] and leaves the store as it was,
    backups included; a bulk item with such an id, a valid slug and an
    available one is reported as a failed write, and the items after it
    find the store unchanged. *)
Theorem update_unknown_record_id (d : Disk) (rid new_slug : string)
        (rest : list Update) :
  (forall p, In p (load_products d) -> record_id p <> rid) ->
  update_product_slug d rid new_slug = (false, d)
  /\ (rid <> "" ->
      fst (validate_slug new_slug) = true ->
      check_slug_availability d new_slug (Some rid) = true ->
      update_one d (mkUpdate (Some rid) (Some new_slug))
      = (mkResult (Some rid) false (Some err_database), d)
      /\ bulk_update_slugs d (mkUpdate (Some rid) (Some new_slug) :: rest)
         = (mkResult (Some rid) false (Some err_database)
              :: fst (bulk_update_slugs d rest),
            snd (bulk_update_slugs d rest))).
Proof.
  intros H. pose proof (update_unknown d rid new_slug H) as Hu.
  split; [exact Hu|]. intros Hrid Hv Ha.
  assert (E : update_one d (mkUpdate (Some rid) (Some new_slug))
              = (mkResult (Some rid) false (Some err_database), d)).
  { unfold update_one. cbn [u_record_id u_new_slug truthy].
    destruct rid as [|c r]; [congruence|].
    destruct new_slug as [|c2 r2]; [discriminate|].
    cbn [is_empty negb orb].
    destruct (validate_slug (String c2 r2)) as [v m]. simpl in Hv. subst v.
    cbn [negb]. rewrite Ha, Hu. reflexivity. }
  split; [exact E|]. rewrite bulk_cons, E. reflexivity.
Qed.

Lemma update_unknown_record_id_witness :
  (forall p, In p (load_products disk_shoes) -> record_id p <> "7")
  /\ "7" <> ""
  /\ fst (validate_slug "boots") = true
  /\ check_slug_availability disk_shoes "boots" (Some "7") = true
  /\ update_product_slug disk_shoes "7" "boots" = (false, disk_shoes)
  /\ update_one disk_shoes (mkUpdate (Some "7") (Some "boots"))
     = (mkResult (Some "7") false (Some err_database), disk_shoes).
Proof.
  assert (H : forall p, In p (load_products disk_shoes) -> record_id p <> "7").
  { intros p [<-|[<-|[]]]; discriminate. }
  assert (Hr : "7" <> "") by discriminate.
  assert (Hv : fst (validate_slug "boots") = true) by reflexivity.
  assert (Ha : check_slug_availability disk_shoes "boots" (Some "7") = true)
    by reflexivity.
  refine (conj H (conj Hr (conj Hv (conj Ha (conj _ _))))).
  - exact (proj1 (update_unknown_record_id disk_shoes "7" "boots" [] H)).
  - exact (proj1 (proj2 (update_unknown_record_id disk_shoes "7" "boots" [] H)
                    Hr Hv Ha)).
Defined.

(** C9. In the slug analysis a row with a slug seen once before adds 2 to
    the duplicate counter, a row with a slug seen more often adds 1, and
    any other row adds nothing; slugs are compared as they are written.
    Hence the reported [duplicate_slugs] is the number of products whose
    slug is also the slug of another product, that is the sum, over the
    slug values carried by k >= 2 products, of k. *)
Theorem duplicate_slugs_counts_shared (d : Disk) (mmdd : string) (df : list Product) :
  (forall rows p slug, slug_of p = Some slug ->
      duplicate_slugs (fst (loop_state d mmdd df (rows ++ [p])))
      = duplicate_slugs (fst (loop_state d mmdd df rows))
        + duplicate_gain (occurrences slug rows))
  /\ (forall rows p, slug_of p = None ->
      duplicate_slugs (fst (loop_state d mmdd df (rows ++ [p])))
      = duplicate_slugs (fst (loop_state d mmdd df rows)))
  /\ duplicate_slugs (analyze_slug_performance d mmdd df) = shared_count df
  /\ duplicate_slugs (analyze_slug_performance d mmdd df) = shared_sum df
  /\ duplicate_slugs (analyze_slug_performance d mmdd products_with_slugs_example) = 3.
Proof.
  assert (Hdf : duplicate_slugs (analyze_slug_performance d mmdd df) = shared_count df)
    by apply (proj2 (loop_invariant d mmdd df df)).
  split; [|split; [|split; [exact Hdf|split]]].
  - intros rows p slug Hp.
    rewrite !(proj2 (loop_invariant d mmdd df _)).
    apply shared_count_snoc_slug, Hp.
  - intros rows p Hp.
    rewrite !(proj2 (loop_invariant d mmdd df _)).
    apply shared_count_snoc_none, Hp.
  - rewrite Hdf. apply shared_count_sum.
  - etransitivity; [apply (proj2 (loop_invariant d mmdd _ _))|reflexivity].
Qed.

Lemma duplicate_slugs_counts_shared_witness :
  slug_of (product_with_slug "2" "a") = Some "a"
  /\ slug_of (product_with_slug "5" "") = None
  /\ duplicate_slugs
       (fst (loop_state disk_shoes "1104" products_with_slugs_example
               ([product_with_slug "1" "a"] ++ [product_with_slug "2" "a"])))
     = duplicate_slugs
         (fst (loop_state disk_shoes "1104" products_with_slugs_example
                 [product_with_slug "1" "a"]))
       + duplicate_gain (occurrences "a" [product_with_slug "1" "a"])
  /\ duplicate_slugs
       (fst (loop_state disk_shoes "1104" products_with_slugs_example
               ([product_with_slug "1" "a"] ++ [product_with_slug "5" ""])))
     = duplicate_slugs
         (fst (loop_state disk_shoes "1104" products_with_slugs_example
                 [product_with_slug "1" "a"])).
Proof.
  assert (Ha : slug_of (product_with_slug "2" "a") = Some "a") by reflexivity.
  assert (Hn : slug_of (product_with_slug "5" "") = None) by reflexivity.
  refine (conj Ha (conj Hn (conj _ _))).
  - exact (proj1 (duplicate_slugs_counts_shared disk_shoes "1104"
                    products_with_slugs_example)
             [product_with_slug "1" "a"] _ _ Ha).
  - exact (proj1 (proj2 (duplicate_slugs_counts_shared disk_shoes "1104"
                           products_with_slugs_example))
             [product_with_slug "1" "a"] _ Hn).
Defined.

(** ** Further properties of the code *)

Module MoreFacts.
Import PyStr PyStrFacts DataHandler AffiliateManager SlugSpec MoreSpec.
Import SlugFacts IndexFacts SuggestFacts StoreFacts AnalysisFacts.

Lemma slug_char_not_line_feed c :
  is_slug_char c = true -> negb (is_line_feed c) = true.
Proof. destruct c as [[] [] [] [] [] [] [] []]; vm_compute; congruence. Qed.

Lemma canonical_no_line_feed c : canonical c -> last_is is_line_feed c = false.
Proof.
  intros (Hall & _). apply all_not_last.
  revert Hall. apply all_impl, slug_char_not_line_feed.
Qed.

(** On a canonical text only the length and the reserved words decide. *)
Lemma validate_canonical c :
  canonical c -> validate_slug c = validate_length_reserved c.
Proof.
  intros Hc. rewrite (validate_slug_six_checks c (canonical_no_line_feed c Hc)).
  destruct Hc as (Hall & Hh & Hl & Hd).
  unfold validate_spec, first_violation, charset_exact, validate_length_reserved.
  rewrite Hall, startswith_hyphen, endswith_hyphen_last, Hh, Hl, Hd.
  unfold is_reserved.
  generalize (existsb (String.eqb c) reserved_words). intros reserved.
  destruct (is_empty c), (String.length c <? 3), (100 <? String.length c), reserved;
    reflexivity.
Qed.

(** *** Lengths *)

Lemma str_length_map f s : String.length (map f s) = String.length s.
Proof. induction s as [|c r IH]; simpl; [reflexivity|]. rewrite IH. reflexivity. Qed.

Lemma length_filter_le p s : String.length (filter p s) <= String.length s.
Proof.
  induction s as [|c r IH]; simpl; [lia|]. destruct (p c); simpl; lia.
Qed.

Lemma length_lstrip_le p s : String.length (lstrip p s) <= String.length s.
Proof.
  induction s as [|c r IH]; simpl; [lia|]. destruct (p c); simpl; lia.
Qed.

Lemma length_rstrip_le p s : String.length (rstrip p s) <= String.length s.
Proof.
  induction s as [|c r IH]; simpl; [lia|].
  destruct (is_empty (rstrip p r) && p c); simpl; lia.
Qed.

Lemma length_sub_runs_le p b s :
  String.length (sub_runs p "-" b s) <= String.length s.
Proof.
  revert b. induction s as [|c r IH]; intros b; simpl; [lia|].
  destruct (p c).
  - destruct b; [specialize (IH true); lia|].
    change ("-" ++ sub_runs p "-" true r)
      with (String hyphen (sub_runs p "-" true r)).
    simpl. specialize (IH true). lia.
  - simpl. specialize (IH false). lia.
Qed.

Lemma length_append s t :
  String.length (s ++ t) = String.length s + String.length t.
Proof. induction s as [|c r IH]; simpl; [reflexivity|]. rewrite IH. reflexivity. Qed.

(** *** Appending to a canonical text *)

Lemma head_is_app p s t : s <> "" -> head_is p (s ++ t) = head_is p s.
Proof. destruct s; [congruence|reflexivity]. Qed.

Lemma is_empty_app s t : is_empty (s ++ t) = is_empty s && is_empty t.
Proof. destruct s; reflexivity. Qed.

Lemma last_is_app p s t : t <> "" -> last_is p (s ++ t) = last_is p t.
Proof.
  intros Ht. induction s as [|c r IH]; [reflexivity|].
  change (String c r ++ t) with (String c (r ++ t)).
  change (last_is p (String c (r ++ t)))
    with (if is_empty (r ++ t) then p c else last_is p (r ++ t)).
  rewrite is_empty_app. destruct t; [congruence|].
  rewrite andb_false_r. exact IH.
Qed.

Lemma contains_double_app s t :
  contains "--" (s ++ t)
  = contains "--" s || (last_is is_hyphen s && head_is is_hyphen t) || contains "--" t.
Proof.
  induction s as [|c r IH]; [reflexivity|].
  change (String c r ++ t) with (String c (r ++ t)).
  rewrite !contains_double_cons, IH. clear IH.
  destruct r as [|c2 r2].
  - change (head_is is_hyphen ("" ++ t)) with (head_is is_hyphen t).
    change (last_is is_hyphen (String c "")) with (is_hyphen c).
    change (contains "--" "") with false.
    change (last_is is_hyphen "") with false.
    change (head_is is_hyphen "") with false.
    destruct (is_hyphen c), (head_is is_hyphen t), (contains "--" t); reflexivity.
  - change (head_is is_hyphen (String c2 r2 ++ t))
      with (head_is is_hyphen (String c2 r2)).
    change (last_is is_hyphen (String c (String c2 r2)))
      with (last_is is_hyphen (String c2 r2)).
    destruct (is_hyphen c), (head_is is_hyphen (String c2 r2)),
      (contains "--" (String c2 r2)), (last_is is_hyphen (String c2 r2)),
      (head_is is_hyphen t), (contains "--" t); reflexivity.
Qed.

Lemma digit_slug_char c : is_digit c = true -> is_slug_char c = true.
Proof.
  unfold is_slug_char, is_digit. intros ->.
  rewrite orb_true_r. reflexivity.
Qed.

Lemma digit_not_hyphen c : is_digit c = true -> negb (is_hyphen c) = true.
Proof. destruct c as [[] [] [] [] [] [] [] []]; vm_compute; congruence. Qed.

Lemma no_hyphen_no_double s :
  all (fun c => negb (is_hyphen c)) s = true -> contains "--" s = false.
Proof.
  induction s as [|c r IH]; [reflexivity|]. simpl all.
  intros [Hc Hr]%andb_true_iff. rewrite contains_double_cons, (IH Hr).
  apply negb_true_iff in Hc. rewrite Hc. reflexivity.
Qed.

(** A canonical text stays canonical with a hyphen and digits after it. *)
Lemma canonical_suffixed base suffix :
  canonical base -> base <> "" -> digits suffix ->
  canonical (base ++ "-" ++ suffix).
Proof.
  intros (Hall & Hh & Hl & Hd) Hne [Hdig Hsne].
  assert (Hnh : all (fun c => negb (is_hyphen c)) suffix = true)
    by (revert Hdig; apply all_impl, digit_not_hyphen).
  change ("-" ++ suffix) with (String hyphen suffix).
  repeat split.
  - rewrite all_app, Hall. simpl.
    revert Hdig. apply all_impl, digit_slug_char.
  - rewrite head_is_app by exact Hne. exact Hh.
  - rewrite last_is_app by discriminate.
    change (last_is is_hyphen (String hyphen suffix))
      with (if is_empty suffix then is_hyphen hyphen else last_is is_hyphen suffix).
    destruct suffix as [|c r]; [congruence|]. apply all_not_last, Hnh.
  - rewrite contains_double_app, Hd, Hl, contains_double_cons.
    rewrite (all_not_head _ _ Hnh), (no_hyphen_no_double _ Hnh). reflexivity.
Qed.

Lemma numbers_are_digits i : In i (seq 2 98) -> digits (of_nat i).
Proof.
  assert (H : forallb (fun i => all is_digit (of_nat i)
                                && negb (is_empty (of_nat i))) (seq 2 98) = true)
    by (vm_compute; reflexivity).
  intros Hi. apply (proj1 (forallb_forall _ _) H) in Hi.
  apply andb_true_iff in Hi as [Ha He]. split; [exact Ha|].
  intros E. rewrite E in He. discriminate.
Qed.

Lemma length_not_empty s : 3 <= String.length s -> s <> "".
Proof. destruct s; simpl; [lia|discriminate]. Qed.

(** *** Suggestions *)

Lemma suggest_slug_cases d mmdd name :
  suggest_slug d mmdd name <> "" ->
  exists n, name = Some n
    /\ 3 <= String.length (clean_slug n)
    /\ (suggest_slug d mmdd name = clean_slug n
        \/ (exists i, In i (seq 2 98)
                      /\ suggest_slug d mmdd name = numbered_slug (clean_slug n) i)
        \/ suggest_slug d mmdd name = clean_slug n ++ "-" ++ mmdd).
Proof.
  destruct name as [n|]; [|intros H; destruct H; reflexivity].
  rewrite suggest_slug_unfold. cbv zeta. intros H. exists n. split; [reflexivity|].
  destruct (String.length (clean_slug n) <? 3) eqn:E; [congruence|].
  apply Nat.ltb_ge in E. split; [exact E|].
  destruct (free d (clean_slug n)); [left; reflexivity|].
  destruct (try_numbers d (clean_slug n) (seq 2 98)) as [x|] eqn:Ht.
  - right. left. apply try_numbers_some in Ht as (i & Hi & Hx & _). eauto.
  - right. right. reflexivity.
Qed.

Lemma suggest_slug_is_canonical d mmdd name :
  digits mmdd -> suggest_slug d mmdd name <> "" ->
  canonical (suggest_slug d mmdd name)
  /\ 3 <= String.length (suggest_slug d mmdd name).
Proof.
  intros Hm H. destruct (suggest_slug_cases d mmdd name H) as (n & _ & Hlen & Hc).
  pose proof (clean_slug_is_canonical n) as Hcan.
  pose proof (length_not_empty _ Hlen) as Hne.
  destruct Hc as [->|[(i & Hi & ->)| ->]].
  - split; assumption.
  - unfold numbered_slug. split.
    + apply canonical_suffixed; auto using numbers_are_digits.
    + rewrite length_append. lia.
  - split.
    + apply canonical_suffixed; assumption.
    + rewrite length_append. lia.
Qed.

(** What the validator answers on a canonical text of 3 characters or
    more. *)
Lemma validate_canonical_long_enough c :
  canonical c -> 3 <= String.length c ->
  validate_slug c
  = if 100 <? String.length c then (false, msg_long)
    else if is_reserved c then (false, msg_reserved c)
    else (true, msg_valid).
Proof.
  intros Hc Hlen. rewrite (validate_canonical c Hc). unfold validate_length_reserved.
  destruct c; [simpl in Hlen; lia|]. cbn [is_empty].
  apply Nat.ltb_ge in Hlen. rewrite Hlen. reflexivity.
Qed.

Lemma auto_generate_updates_in d mmdd df u :
  In u (App.auto_generate_updates d mmdd df) ->
  exists p, In p df /\ slug_of p = None
    /\ suggest_slug d mmdd (Name p) <> ""
    /\ u = mkUpdate (Some (record_id p)) (Some (suggest_slug d mmdd (Name p))).
Proof.
  induction df as [|p df IH]; simpl; [intros []|].
  destruct (slug_of p) eqn:Hp.
  - intros H. destruct (IH H) as (q & Hq & Hr). exists q. split; [right; exact Hq|exact Hr].
  - destruct (suggest_slug d mmdd (Name p)) as [|c r] eqn:Hs; simpl.
    + intros H. destruct (IH H) as (q & Hq & Hr). exists q. split; [right; exact Hq|exact Hr].
    + intros [<-|H].
      * exists p. rewrite Hs. repeat split; auto; discriminate.
      * destruct (IH H) as (q & Hq & Hr). exists q. split; [right; exact Hq|exact Hr].
Qed.

(** *** The table after an update *)

Lemma load_products_keeps d p : In p (load_products d) -> keeps_row p = true.
Proof. unfold load_products. rewrite filter_In. tauto. Qed.

(** The record_id of a row of the table is not the text of a missing
    value. *)
Lemma loaded_id_not_na d p : In p (load_products d) -> is_na (record_id p) = false.
Proof.
  unfold load_products. rewrite filter_In, in_map_iff.
  intros [(r & <- & _) Hk]. unfold keeps_row in Hk. cbn [read_row record_id] in *.
  destruct (is_na (record_id r)) eqn:E; [discriminate Hk|exact E].
Qed.

Lemma keeps_row_assign rid new_slug df :
  forallb keeps_row df = true ->
  forallb keeps_row (assign_slug (has_id rid) new_slug df) = true.
Proof.
  induction df as [|p df IH]; simpl; [reflexivity|].
  intros [Hp Hdf]%andb_true_iff. rewrite (IH Hdf), andb_true_r.
  destruct (has_id rid p); exact Hp.
Qed.

Lemma load_products_all_keep d : forallb keeps_row (load_products d) = true.
Proof. apply forallb_forall. intros p. apply load_products_keeps. Qed.

(** A successful update: the id is known, the file can be written, and
    the rows written are those of the table read with the slug
    assigned. *)
Lemma update_success_written d rid new_slug :
  fst (update_product_slug d rid new_slug) = true ->
  (exists p, In p (load_products d) /\ record_id p = rid)
  /\ writable d = true
  /\ data_file (snd (update_product_slug d rid new_slug))
     = assign_slug (has_id rid) new_slug (load_products d).
Proof.
  unfold update_product_slug. fold (has_id rid).
  destruct (existsb (has_id rid) (load_products d)) eqn:E; [|discriminate].
  simpl negb. cbv iota. rewrite save_products_result. cbn [fst snd data_file].
  intros Hw. split; [apply existsb_record_id, E|]. split; [exact Hw|].
  rewrite Hw. reflexivity.
Qed.

(** *** Backups *)

Lemma backups_create_le d : List.length (backups (create_backup d)) <= 10.
Proof. unfold create_backup. cbn [backups]. rewrite length_firstn. lia. Qed.

Lemma other_backups_firstn name n copies :
  other_backups name (firstn n (other_backups name copies))
  = firstn n (other_backups name copies).
Proof.
  unfold other_backups at 1. apply forallb_filter_id, forallb_forall.
  intros b Hb.
  assert (Hin : In b (other_backups name copies)).
  { rewrite <- (firstn_skipn n (other_backups name copies)).
    apply in_or_app. left. exact Hb. }
  apply filter_In in Hin. apply Hin.
Qed.

Lemma backups_update_le d rid new_slug :
  List.length (backups d) <= 10 ->
  List.length (backups (snd (update_product_slug d rid new_slug))) <= 10.
Proof.
  intros H. unfold update_product_slug.
  destruct (negb (existsb _ (load_products d))); [exact H|].
  rewrite save_products_result. cbn [snd backups]. apply backups_create_le.
Qed.

Lemma backups_update_one_le d u :
  List.length (backups d) <= 10 ->
  List.length (backups (snd (update_one d u))) <= 10.
Proof.
  intros H. unfold update_one.
  destruct u as [[rid|] [new_slug|]]; cbn [u_record_id u_new_slug]; try exact H.
  destruct (negb (truthy (Some rid)) || negb (truthy (Some new_slug))); [exact H|].
  destruct (validate_slug new_slug) as [v m].
  destruct (negb v); [exact H|].
  destruct (negb (check_slug_availability d new_slug (Some rid))); [exact H|].
  pose proof (backups_update_le d rid new_slug H) as Hb.
  destruct (update_product_slug d rid new_slug) as [ok d']. exact Hb.
Qed.

(** *** The counters of the slug analysis *)

Lemma analyze_row_fields d mmdd a m p :
  let a' := fst (analyze_row d mmdd (a, m) p) in
  total_products a' = total_products a
  /\ products_with_slugs a'
     = products_with_slugs a + (if has_slug p then 1 else 0)
  /\ products_without_slugs a'
     = products_without_slugs a + (if has_slug p then 0 else 1)
  /\ invalid_slugs a' = invalid_slugs a + (if slug_invalid p then 1 else 0)
  /\ suggestions a' = (suggestions a ++ row_suggestion d mmdd p)%list.
Proof.
  unfold analyze_row, has_slug, slug_invalid, row_suggestion, count_slug.
  destruct (slug_of p) as [slug|].
  - destruct (validate_slug slug) as [v msg]. cbn [fst snd].
    destruct (m !! slug) as [n|]; [destruct (n + 1 =? 2)|];
      destruct v; cbn [negb];
      try destruct (is_empty (suggest_slug d mmdd (Name p)));
      cbn; rewrite ?app_nil_r; repeat split; lia.
  - destruct (is_empty (suggest_slug d mmdd (Name p)));
      cbn; rewrite ?app_nil_r; repeat split; lia.
Qed.

Lemma length_filter_snoc (f : Product -> bool) rows p :
  List.length (List.filter f (rows ++ [p]))
  = List.length (List.filter f rows) + (if f p then 1 else 0).
Proof.
  rewrite List.filter_app, length_app. simpl. destruct (f p); reflexivity.
Qed.

Lemma loop_counters d mmdd df rows :
  let a := fst (loop_state d mmdd df rows) in
  total_products a = List.length df
  /\ products_with_slugs a = List.length (List.filter has_slug rows)
  /\ products_without_slugs a
     = List.length (List.filter (fun p => negb (has_slug p)) rows)
  /\ invalid_slugs a = List.length (List.filter slug_invalid rows)
  /\ suggestions a = flat_map (row_suggestion d mmdd) rows.
Proof.
  induction rows as [|p rows IH] using rev_ind; [repeat split|].
  rewrite loop_state_snoc. cbv zeta in *.
  destruct (loop_state d mmdd df rows) as [a m]. cbn [fst] in IH.
  destruct IH as (Ht & Hw & Ho & Hi & Hs).
  destruct (analyze_row_fields d mmdd a m p) as (Ht' & Hw' & Ho' & Hi' & Hs').
  rewrite Ht', Hw', Ho', Hi', Hs', Ht, Hw, Ho, Hi, Hs.
  rewrite !length_filter_snoc, flat_map_app. simpl. rewrite app_nil_r.
  destruct (has_slug p); repeat split; reflexivity.
Qed.

Lemma filter_split (f : Product -> bool) rows :
  List.length (List.filter f rows)
  + List.length (List.filter (fun p => negb (f p)) rows) = List.length rows.
Proof.
  induction rows as [|p rows IH]; simpl; [reflexivity|].
  destruct (f p); simpl; lia.
Qed.

Lemma filter_le_filter (f g : Product -> bool) rows :
  (forall p, f p = true -> g p = true) ->
  List.length (List.filter f rows) <= List.length (List.filter g rows).
Proof.
  intros H. induction rows as [|p rows IH]; simpl; [lia|].
  destruct (f p) eqn:E; [rewrite (H p E); simpl; lia|].
  destruct (g p); simpl; lia.
Qed.

Lemma row_suggestion_length d mmdd p :
  List.length (row_suggestion d mmdd p)
  <= (if has_slug p then 0 else 1) + (if slug_invalid p then 1 else 0).
Proof.
  unfold row_suggestion, has_slug, slug_invalid.
  destruct (slug_of p) as [slug|].
  - destruct (fst (validate_slug slug)); simpl; [lia|].
    destruct (is_empty (suggest_slug d mmdd (Name p))); simpl; lia.
  - destruct (is_empty (suggest_slug d mmdd (Name p))); simpl; lia.
Qed.

Lemma flat_map_length_le d mmdd rows :
  List.length (flat_map (row_suggestion d mmdd) rows)
  <= List.length (List.filter (fun p => negb (has_slug p)) rows)
     + List.length (List.filter slug_invalid rows).
Proof.
  induction rows as [|p rows IH]; simpl; [lia|].
  rewrite length_app. pose proof (row_suggestion_length d mmdd p) as Hp.
  destruct (has_slug p), (slug_invalid p); simpl in *; lia.
Qed.

Lemma in_row_suggestion d mmdd p sg :
  In sg (row_suggestion d mmdd p) ->
  s_record_id sg = record_id p
  /\ s_suggested_slug sg = suggest_slug d mmdd (Name p)
  /\ s_suggested_slug sg <> ""
  /\ s_current_slug sg = slug_of p.
Proof.
  unfold row_suggestion.
  destruct (slug_of p) as [slug|].
  - destruct (fst (validate_slug slug)); [intros []|].
    destruct (suggest_slug d mmdd (Name p)) as [|c r] eqn:E; [intros []|].
    intros [<-|[]]. repeat split; discriminate.
  - destruct (suggest_slug d mmdd (Name p)) as [|c r] eqn:E; [intros []|].
    intros [<-|[]]. repeat split; discriminate.
Qed.



(** *** URLs *)

Lemma append_inj_l s a b : s ++ a = s ++ b -> a = b.
Proof.
  induction s as [|c r IH]; [intros H; exact H|].
  change (String c r ++ a) with (String c (r ++ a)).
  change (String c r ++ b) with (String c (r ++ b)).
  intros [= H]. apply IH, H.
Qed.

Lemma append_inj_r c a : forall b, a ++ String c "" = b ++ String c "" -> a = b.
Proof.
  induction a as [|x a IH]; intros [|y b].
  - reflexivity.
  - change (String y b ++ String c "") with (String y (b ++ String c "")).
    change ("" ++ String c "") with (String c "").
    intros [= _ H]. destruct b; discriminate.
  - change (String x a ++ String c "") with (String x (a ++ String c "")).
    change ("" ++ String c "") with (String c "").
    intros [= _ H]. destruct a; discriminate.
  - change (String x a ++ String c "") with (String x (a ++ String c "")).
    change (String y b ++ String c "") with (String y (b ++ String c "")).
    intros [= -> H]. f_equal. apply IH, H.
Qed.

Lemma direct_url_inj base a b :
  base ++ "/" ++ a ++ "/" = base ++ "/" ++ b ++ "/" -> a = b.
Proof.
  intros H. apply append_inj_l in H.
  change ("/" ++ a ++ "/") with (String "/"%char (a ++ "/")) in H.
  change ("/" ++ b ++ "/") with (String "/"%char (b ++ "/")) in H.
  injection H as H. apply (append_inj_r "/"%char), H.
Qed.

Lemma clean_slug_twice x : clean_slug (clean_slug x) = clean_slug x.
Proof. apply clean_slug_canonical_id, clean_slug_is_canonical. Qed.

Lemma in_export_products base rate df e :
  In e (AffiliateManagerRest.export_products base rate df) ->
  exists p, In p df
    /\ slug_of p = Some (AffiliateManagerRest.c_slug e)
    /\ AffiliateManagerRest.c_id e = record_id p
    /\ AffiliateManagerRest.c_direct_url e
       = base ++ "/" ++ AffiliateManagerRest.c_slug e ++ "/".
Proof.
  induction df as [|p df IH]; simpl; [intros []|].
  destruct (slug_of p) as [slug|] eqn:Hp.
  - intros [<-|H].
    + exists p. simpl. auto.
    + destruct (IH H) as (q & Hq & Hr). exists q. auto.
  - intros H. destruct (IH H) as (q & Hq & Hr). exists q. auto.
Qed.

Lemma slug_of_not_empty p s : slug_of p = Some s -> s <> "".
Proof.
  unfold slug_of. destruct (URL_Slug p) as [t|]; [|discriminate].
  destruct t; [discriminate|]. intros [= <-]. discriminate.
Qed.

Lemma rstrip_snoc p s c :
  p c = true -> rstrip p (s ++ String c "") = rstrip p s.
Proof.
  intros Hc. induction s as [|x r IH].
  - change ("" ++ String c "") with (String c ""). simpl. rewrite Hc. reflexivity.
  - change (String x r ++ String c "") with (String x (r ++ String c "")).
    simpl. rewrite IH. reflexivity.
Qed.

End MoreFacts.

Import MoreSpec MoreFacts.

(** X1. A normalized text never fails the character, edge-hyphen or
    double-hyphen checks of the validator: what [validate_slug] answers
    on [clean_slug x] is decided by emptiness, length and the reserved
    words alone. *)
Theorem validate_slug_of_clean_slug (x : string) :
  validate_slug (clean_slug x) = validate_length_reserved (clean_slug x).
Proof. apply validate_canonical, clean_slug_is_canonical. Qed.

(** X2. Normalizing never makes a text longer. *)
Theorem clean_slug_length_le (x : string) :
  String.length (clean_slug x) <= String.length x.
Proof.
  unfold clean_slug. destruct (is_empty x); [simpl; lia|].
  unfold strip, re_sub_plus, re_sub_not, lower.
  repeat first
    [ etransitivity; [apply length_rstrip_le|]
    | etransitivity; [apply length_lstrip_le|]
    | etransitivity; [apply length_sub_runs_le|]
    | etransitivity; [apply length_filter_le|] ].
  rewrite str_length_map. lia.
Qed.

(** X3. The manager's validator accepts exactly the slugs that the
    handler's validator accepts and that have 3 to 100 characters and are
    not reserved; where the handler's validator rejects a slug of such a
    length, the manager's gives the same reason. *)
Theorem validators_agree (s : string) :
  (fst (validate_slug s) = true <->
   fst (DataHandlerRest.validate_slug s) = true
   /\ 3 <= String.length s <= 100
   /\ is_reserved s = false)
  /\ (3 <= String.length s <= 100 ->
      fst (DataHandlerRest.validate_slug s) = false ->
      validate_slug s = DataHandlerRest.validate_slug s).
Proof.
  unfold validate_slug, DataHandlerRest.validate_slug.
  destruct (Nat.ltb_spec (String.length s) 3) as [H3|H3];
    destruct (Nat.ltb_spec 100 (String.length s)) as [H100|H100];
    destruct (is_empty s) eqn:He;
    try (destruct s; [|discriminate He]; simpl in *; lia);
    destruct (negb (re_match_plus_dollar is_slug_char s));
    destruct (startswith "-" s || endswith "-" s);
    destruct (contains "--" s);
    destruct (is_reserved s);
    simpl; (split; [split; [intros; try discriminate; repeat split; auto; lia
                           |intros (? & ? & ?); try discriminate; try lia; auto]
                   |intros; try lia; try discriminate; reflexivity]).
Qed.

Lemma validators_agree_witness :
  3 <= String.length "my--slug" <= 100
  /\ fst (DataHandlerRest.validate_slug "my--slug") = false
  /\ validate_slug "my--slug" = DataHandlerRest.validate_slug "my--slug".
Proof.
  assert (Hl : 3 <= String.length "my--slug" <= 100) by (simpl; lia).
  assert (Hf : fst (DataHandlerRest.validate_slug "my--slug") = false) by reflexivity.
  refine (conj Hl (conj Hf _)).
  exact (proj2 (validators_agree "my--slug") Hl Hf).
Defined.

(** X4. With a date suffix of digits, every suggestion that is not empty
    is a canonical token of 3 characters or more, so the validator can
    reject it only for being longer than 100 characters or a reserved
    word. *)
Theorem suggest_slug_format (d : Disk) (mmdd : string) (name : option string) :
  digits mmdd ->
  suggest_slug d mmdd name <> "" ->
  canonical (suggest_slug d mmdd name)
  /\ 3 <= String.length (suggest_slug d mmdd name)
  /\ validate_slug (suggest_slug d mmdd name)
     = if 100 <? String.length (suggest_slug d mmdd name) then (false, msg_long)
       else if is_reserved (suggest_slug d mmdd name)
       then (false, msg_reserved (suggest_slug d mmdd name))
       else (true, msg_valid).
Proof.
  intros Hm H. destruct (suggest_slug_is_canonical d mmdd name Hm H) as [Hc Hl].
  split; [exact Hc|]. split; [exact Hl|].
  apply validate_canonical_long_enough; assumption.
Qed.

Lemma suggest_slug_format_witness :
  digits "1104"
  /\ suggest_slug disk_shoes "1104" (Some "Admin") <> ""
  /\ validate_slug (suggest_slug disk_shoes "1104" (Some "Admin"))
     = if 100 <? String.length (suggest_slug disk_shoes "1104" (Some "Admin"))
       then (false, msg_long)
       else if is_reserved (suggest_slug disk_shoes "1104" (Some "Admin"))
       then (false, msg_reserved (suggest_slug disk_shoes "1104" (Some "Admin")))
       else (true, msg_valid).
Proof.
  assert (Hm : digits "1104") by (split; [reflexivity|discriminate]).
  assert (H : suggest_slug disk_shoes "1104" (Some "Admin") <> "")
    by (vm_compute; discriminate).
  refine (conj Hm (conj H _)).
  exact (proj2 (proj2 (suggest_slug_format disk_shoes "1104" (Some "Admin") Hm H))).
Defined.

(** X5. In the flow of the button "Auto-Generate Missing Slugs" every
    item of the batch comes from a product of the table without a slug
    and carries that product's id and its suggestion, neither empty; so
    no item is a MissingField, and an item can be an InvalidSlug only
    because its suggestion is longer than 100 characters or a reserved
    word. *)
Theorem auto_generate_items (d : Disk) (mmdd : string) (u : Update) :
  digits mmdd ->
  In u (App.auto_generate_updates d mmdd (load_products d)) ->
  (exists p, In p (load_products d) /\ slug_of p = None
     /\ u = mkUpdate (Some (record_id p)) (Some (suggest_slug d mmdd (Name p))))
  /\ forall d2,
      classify d2 u <> MissingField
      /\ forall reason, classify d2 u = InvalidSlug reason ->
           reason = msg_long
           \/ exists slug, u_new_slug u = Some slug /\ reason = msg_reserved slug.
Proof.
  intros Hm Hu.
  destruct (auto_generate_updates_in d mmdd _ u Hu) as (p & Hp & Hs & Hne & ->).
  split; [exists p; auto|]. intros d2.
  pose proof (load_products_id_not_empty d p Hp) as Hid.
  destruct (suggest_slug_is_canonical d mmdd (Name p) Hm Hne) as [Hc Hl].
  pose proof (validate_canonical_long_enough _ Hc Hl) as Hv.
  unfold classify, absent. cbn [u_record_id u_new_slug truthy].
  destruct (record_id p) as [|c r] eqn:Er; [congruence|].
  destruct (suggest_slug d mmdd (Name p)) as [|c2 r2] eqn:Es; [congruence|].
  cbn [is_empty negb orb]. rewrite Hv.
  destruct (100 <? String.length (String c2 r2)).
  - cbn [fst snd negb]. split; [discriminate|]. intros reason [= <-]. left. reflexivity.
  - destruct (is_reserved (String c2 r2)).
    + cbn [fst snd negb]. split; [discriminate|]. intros reason [= <-].
      right. exists (String c2 r2). auto.
    + cbn [fst snd negb].
      destruct (negb (check_slug_availability d2 (String c2 r2) (Some (String c r))));
        [split; [discriminate|intros ? [=]]|].
      destruct (fst (update_product_slug d2 (String c r) (String c2 r2)));
        (split; [discriminate|intros ? [=]]).
Qed.

Lemma auto_generate_items_witness :
  digits "1104"
  /\ In (mkUpdate (Some "9") (Some "hat-box"))
        (App.auto_generate_updates
           (stored [product_with_slug "1" "shoes";
                    mkProduct "9" (Some "Hat Box") None None None]) "1104"
           (load_products
              (stored [product_with_slug "1" "shoes";
                       mkProduct "9" (Some "Hat Box") None None None])))
  /\ classify (stored [product_with_slug "1" "shoes";
                       mkProduct "9" (Some "Hat Box") None None None])
              (mkUpdate (Some "9") (Some "hat-box")) <> MissingField.
Proof.
  assert (Hm : digits "1104") by (split; [reflexivity|discriminate]).
  assert (Hu : In (mkUpdate (Some "9") (Some "hat-box"))
                  (App.auto_generate_updates
                     (stored [product_with_slug "1" "shoes";
                              mkProduct "9" (Some "Hat Box") None None None]) "1104"
                     (load_products
                        (stored [product_with_slug "1" "shoes";
                                 mkProduct "9" (Some "Hat Box") None None None]))))
    by (left; reflexivity).
  refine (conj Hm (conj Hu _)).
  exact (proj1 (proj2 (auto_generate_items _ "1104" _ Hm Hu) _)).
Defined.

(** X6. [check_slug_availability] answers "taken" exactly when the
    column 'URL Slug' read from the file holds no text (the error of
    [.str] is caught), or a product of the table, the excluded one apart
    when an id to exclude is given, has a URL Slug that is not null and
    equals the candidate once both are lower-cased; so excluding a
    product never makes a slug unavailable. *)
Theorem slug_taken_iff (d : Disk) (slug : string) (ex : option string) :
  (check_slug_availability d slug ex = false <->
   slug_column_is_text (data_file d) = false
   \/ exists p s, In p (load_products d)
        /\ (truthy ex = true -> ex <> Some (record_id p))
        /\ URL_Slug p = Some s
        /\ lower s = lower slug)
  /\ (check_slug_availability d slug None = true ->
      check_slug_availability d slug ex = true).
Proof.
  assert (Hiff : forall e, check_slug_availability d slug e = false <->
            slug_column_is_text (data_file d) = false
            \/ exists p s, In p (load_products d)
                 /\ (truthy e = true -> e <> Some (record_id p))
                 /\ URL_Slug p = Some s /\ lower s = lower slug).
  { intros e. unfold check_slug_availability.
    destruct (slug_column_is_text (data_file d)) eqn:Htext.
    - rewrite (check_slug_uniqueness_false d slug e Htext). unfold compared.
      split.
      + intros (p & s & H). right. exists p, s. tauto.
      + intros [H|(p & s & H)]; [discriminate|]. exists p, s. tauto.
    - rewrite (check_slug_uniqueness_not_text d slug e Htext). tauto. }
  split; [apply Hiff|].
  intros Hfree. destruct (check_slug_availability d slug ex) eqn:E; [reflexivity|].
  apply not_false_iff_true in Hfree. destruct Hfree. apply Hiff.
  apply Hiff in E as [E|(p & s & Hp & _ & Hs & Hl)]; [left; exact E|].
  right. exists p, s. repeat split; auto; discriminate.
Qed.

Lemma slug_taken_iff_witness :
  check_slug_availability disk_shoes "boots" None = true
  /\ check_slug_availability disk_shoes "boots" (Some "1") = true.
Proof.
  assert (H : check_slug_availability disk_shoes "boots" None = true) by reflexivity.
  split; [exact H|].
  exact (proj2 (slug_taken_iff disk_shoes "boots" (Some "1")) H).
Defined.

(** X12. Backups: an update of a known product copies the data file as
    it was before the write to the newest backup, named after the time
    read from the clock, also when the write then fails, and an update of
    an unknown product makes no backup; a
    batch never leaves more than ten backups when there were no more than
    ten before it. *)
Theorem backups_kept (d : Disk) (updates : list Update) :
  (forall rid new_slug,
      (exists p, In p (load_products d) /\ record_id p = rid) ->
      hd_error (backups (snd (update_product_slug d rid new_slug)))
      = Some ("products_backup_" ++ clock d (clock_reads d) ++ ".csv", data_file d))
  /\ (forall rid new_slug,
      (forall p, In p (load_products d) -> record_id p <> rid) ->
      backups (snd (update_product_slug d rid new_slug)) = backups d)
  /\ (List.length (backups d) <= 10 ->
      List.length (backups (snd (bulk_update_slugs d updates))) <= 10).
Proof.
  split; [|split].
  - intros rid new_slug H.
    rewrite (update_known d rid new_slug H), save_products_result. reflexivity.
  - intros rid new_slug H. rewrite (update_unknown d rid new_slug H). reflexivity.
  - revert d. induction updates as [|u rest IH]; intros d H; [exact H|].
    rewrite bulk_cons. cbn [snd]. apply IH, backups_update_one_le, H.
Qed.

Lemma backups_kept_witness :
  (exists p, In p (load_products disk_shoes) /\ record_id p = "1")
  /\ (forall p, In p (load_products disk_shoes) -> record_id p <> "7")
  /\ List.length (backups disk_shoes) <= 10
  /\ hd_error (backups (snd (update_product_slug disk_shoes "1" "boots")))
     = Some ("products_backup_20240101_100000.csv", data_file disk_shoes)
  /\ backups (snd (update_product_slug disk_shoes "7" "boots")) = backups disk_shoes
  /\ List.length (backups (snd (bulk_update_slugs disk_shoes batch_example))) <= 10.
Proof.
  assert (H1 : exists p, In p (load_products disk_shoes) /\ record_id p = "1").
  { exists (product_with_slug "1" "shoes"). split; [left; reflexivity|reflexivity]. }
  assert (H7 : forall p, In p (load_products disk_shoes) -> record_id p <> "7").
  { intros p [<-|[<-|[]]]; discriminate. }
  assert (Hb : List.length (backups disk_shoes) <= 10) by (simpl; lia).
  refine (conj H1 (conj H7 (conj Hb (conj _ (conj _ _))))).
  - exact (proj1 (backups_kept disk_shoes batch_example) "1" "boots" H1).
  - exact (proj1 (proj2 (backups_kept disk_shoes batch_example)) "7" "boots" H7).
  - exact (proj2 (proj2 (backups_kept disk_shoes batch_example)) Hb).
Defined.

(** X13. The button "Save Slug" and a bulk update of one item decide
    alike: for a product id that is not empty, the message of the button
    is the one of the item's outcome (on an empty text the button asks
    for a slug, where the bulk update reports a missing field), and both
    leave the same store. *)
Theorem save_slug_as_bulk_item (d : Disk) (rid new_slug : string) :
  rid <> "" ->
  fst (App.save_slug d rid new_slug)
  = message_of_outcome (classify d (mkUpdate (Some rid) (Some new_slug)))
  /\ snd (App.save_slug d rid new_slug)
     = snd (update_one d (mkUpdate (Some rid) (Some new_slug))).
Proof.
  intros Hrid. unfold App.save_slug, classify, update_one, absent.
  cbn [u_record_id u_new_slug truthy].
  destruct rid as [|c r]; [congruence|].
  destruct new_slug as [|c2 r2]; [split; reflexivity|].
  cbn [is_empty negb orb].
  destruct (validate_slug (String c2 r2)) as [v m]. cbn [fst snd].
  destruct v; cbn [negb]; [|split; reflexivity].
  destruct (check_slug_availability d (String c2 r2) (Some (String c r)));
    cbn [negb]; [|split; reflexivity].
  destruct (update_product_slug d (String c r) (String c2 r2)) as [[|] d'];
    split; reflexivity.
Qed.

Lemma save_slug_as_bulk_item_witness :
  "1" <> ""
  /\ fst (App.save_slug disk_shoes "1" "shoes-2")
     = message_of_outcome (classify disk_shoes (mkUpdate (Some "1") (Some "shoes-2")))
  /\ snd (App.save_slug disk_shoes "1" "shoes-2")
     = snd (update_one disk_shoes (mkUpdate (Some "1") (Some "shoes-2"))).
Proof.
  assert (H : "1" <> "") by discriminate.
  split; [exact H|].
  exact (save_slug_as_bulk_item disk_shoes "1" "shoes-2" H).
Defined.

(** X14. The counters of the slug analysis: the total is the number of
    rows, every row is counted once as with or without a slug, the
    invalid slugs are counted among the rows with a slug, there are no
    more suggestions than rows without a slug or with an invalid one, and
    every suggestion belongs to a row of the table and carries that row's
    id and its suggested slug, which is not empty. *)
Theorem analysis_counters (d : Disk) (mmdd : string) (df : list Product) :
  let a := analyze_slug_performance d mmdd df in
  total_products a = List.length df
  /\ products_with_slugs a + products_without_slugs a = total_products a
  /\ products_with_slugs a = List.length (List.filter has_slug df)
  /\ invalid_slugs a = List.length (List.filter slug_invalid df)
  /\ invalid_slugs a <= products_with_slugs a
  /\ List.length (suggestions a) <= products_without_slugs a + invalid_slugs a
  /\ Forall (fun sg => s_suggested_slug sg <> ""
                       /\ exists p, In p df
                            /\ s_record_id sg = record_id p
                            /\ s_current_slug sg = slug_of p
                            /\ s_suggested_slug sg = suggest_slug d mmdd (Name p))
            (suggestions a).
Proof.
  cbv zeta. unfold analyze_slug_performance. fold (loop_state d mmdd df df).
  destruct (loop_counters d mmdd df df) as (Ht & Hw & Ho & Hi & Hs).
  rewrite Ht, Hw, Ho, Hi, Hs.
  split; [reflexivity|]. split; [apply filter_split|]. split; [reflexivity|].
  split; [reflexivity|]. split.
  - apply filter_le_filter. intros p. unfold slug_invalid, has_slug.
    destruct (slug_of p); [reflexivity|discriminate].
  - split; [apply flat_map_length_le|].
    apply Forall_forall. intros sg Hin%list_elem_of_In.
    apply in_flat_map in Hin as (p & Hp & Hsg).
    destruct (in_row_suggestion d mmdd p sg Hsg) as (Hid & Hsl & Hne & Hcur).
    split; [exact Hne|]. exists p. auto.
Qed.




(** X17. [generate_affiliate_url] depends on a slug only through its
    normal form: a slug and its normalization give the same URL, with or
    without an affiliate id, when the normalization is not empty; a text
    that is not empty and normalizes to nothing gives a direct URL with an
    empty last segment. *)
Theorem affiliate_url_of_normalized (base_url slug : string)
        (affiliate_id : option string) :
  (clean_slug slug <> "" ->
   AffiliateManagerRest.generate_affiliate_url base_url (Some (clean_slug slug)) affiliate_id
   = AffiliateManagerRest.generate_affiliate_url base_url (Some slug) affiliate_id)
  /\ (slug <> "" -> clean_slug slug = "" ->
      AffiliateManagerRest.generate_affiliate_url base_url (Some slug) None
      = Some (base_url ++ "//")).
Proof.
  unfold AffiliateManagerRest.generate_affiliate_url,
    AffiliateManagerRest.clean_slug_cell, AffiliateManagerRest.cell_is_true,
    AffiliateManagerRest.str_of_cell.
  split.
  - intros Hne.
    assert (Hs : is_empty slug = false).
    { destruct slug; [|reflexivity]. destruct Hne. reflexivity. }
    assert (Hc : is_empty (clean_slug slug) = false).
    { destruct (clean_slug slug); [congruence|reflexivity]. }
    rewrite Hs, Hc, clean_slug_twice. reflexivity.
  - intros Hne Hc.
    assert (Hs : is_empty slug = false) by (destruct slug; [congruence|reflexivity]).
    rewrite Hs, Hc. reflexivity.
Qed.

Lemma affiliate_url_of_normalized_witness :
  clean_slug "  Men's Running Shoes!! " <> ""
  /\ "!!!" <> "" /\ clean_slug "!!!" = ""
  /\ AffiliateManagerRest.generate_affiliate_url "https://entremotivator.com"
       (Some (clean_slug "  Men's Running Shoes!! ")) (Some "42")
     = AffiliateManagerRest.generate_affiliate_url "https://entremotivator.com"
         (Some "  Men's Running Shoes!! ") (Some "42")
  /\ AffiliateManagerRest.generate_affiliate_url "https://entremotivator.com"
       (Some "!!!") None
     = Some ("https://entremotivator.com" ++ "//").
Proof.
  assert (H1 : clean_slug "  Men's Running Shoes!! " <> "") by (vm_compute; discriminate).
  assert (H2 : "!!!" <> "") by discriminate.
  assert (H3 : clean_slug "!!!" = "") by reflexivity.
  refine (conj H1 (conj H2 (conj H3 (conj _ _)))).
  - exact (proj1 (affiliate_url_of_normalized "https://entremotivator.com"
                    "  Men's Running Shoes!! " (Some "42")) H1).
  - exact (proj2 (affiliate_url_of_normalized "https://entremotivator.com"
                    "!!!" None) H2 H3).
Defined.

(** X18. The SliceWP export writes the slug as it is stored, the URL
    generator normalizes it: for an entry of the export, the direct URL
    of the export is the one [generate_affiliate_url] gives for the
    entry's slug exactly when the stored slug is in normal form. *)
Theorem export_direct_url (base_url : string) (df : list Product) (rate : nat)
        (e : AffiliateManagerRest.ProductConfig) :
  In e (AffiliateManagerRest.cfg_products
          (AffiliateManagerRest.export_slicewp_config base_url df rate)) ->
  AffiliateManagerRest.c_slug e <> ""
  /\ (AffiliateManagerRest.generate_affiliate_url
        base_url (Some (AffiliateManagerRest.c_slug e)) None
      = Some (AffiliateManagerRest.c_direct_url e)
      <-> clean_slug (AffiliateManagerRest.c_slug e) = AffiliateManagerRest.c_slug e).
Proof.
  cbn [AffiliateManagerRest.export_slicewp_config AffiliateManagerRest.cfg_products].
  intros (p & _ & Hs & _ & Hurl)%in_export_products.
  pose proof (slug_of_not_empty p _ Hs) as Hne. split; [exact Hne|].
  rewrite Hurl.
  unfold AffiliateManagerRest.generate_affiliate_url,
    AffiliateManagerRest.clean_slug_cell, AffiliateManagerRest.cell_is_true,
    AffiliateManagerRest.str_of_cell.
  destruct (AffiliateManagerRest.c_slug e) as [|c r] eqn:E; [congruence|].
  cbn [is_empty negb]. split.
  - intros [= H]. apply direct_url_inj in H. exact H.
  - intros ->. reflexivity.
Qed.

Lemma export_direct_url_witness :
  In (AffiliateManagerRest.mkProductConfig "1" None "shoes"
        "https://entremotivator.com/shoes/"
        "https://entremotivator.com/slicewp_affiliate/{affiliate_id}/shoes/" 10)
     (AffiliateManagerRest.cfg_products
        (AffiliateManagerRest.export_slicewp_config
           "https://entremotivator.com" (load_products disk_shoes) 10))
  /\ "shoes" <> "".
Proof.
  assert (H : In (AffiliateManagerRest.mkProductConfig "1" None "shoes"
                    "https://entremotivator.com/shoes/"
                    "https://entremotivator.com/slicewp_affiliate/{affiliate_id}/shoes/" 10)
                 (AffiliateManagerRest.cfg_products
                    (AffiliateManagerRest.export_slicewp_config
                       "https://entremotivator.com" (load_products disk_shoes) 10)))
    by (left; reflexivity).
  split; [exact H|].
  exact (proj1 (export_direct_url "https://entremotivator.com"
                  (load_products disk_shoes) 10 _ H)).
Defined.

(** X19. The base URL the manager keeps never ends in a slash, and
    trailing slashes of the base URL given make no difference. *)
Theorem init_base_url (base_url : string) :
  last_is AffiliateManagerRest.is_slash (AffiliateManagerRest.init base_url) = false
  /\ AffiliateManagerRest.init (base_url ++ "/") = AffiliateManagerRest.init base_url
  /\ AffiliateManagerRest.init (AffiliateManagerRest.init base_url)
     = AffiliateManagerRest.init base_url.
Proof.
  unfold AffiliateManagerRest.init. split; [apply last_rstrip|]. split.
  - apply rstrip_snoc. reflexivity.
  - apply rstrip_id, last_rstrip.
Qed.

(** X20. A successful update rewrites the data file from the table that
    [load_products] returns: afterwards the file holds as many rows as
    that table, every row of the file has a usable record_id, and a row
    of the old file without one (empty, or the text of a null) is gone. *)
Theorem update_rewrites_loaded_rows (d : Disk) (rid new_slug : string) :
  fst (update_product_slug d rid new_slug) = true ->
  List.length (data_file (snd (update_product_slug d rid new_slug)))
  = List.length (load_products d)
  /\ (forall p, In p (data_file (snd (update_product_slug d rid new_slug))) ->
        keeps_row p = true)
  /\ (forall p, In p (data_file d) -> keeps_row p = false ->
        ~ In p (data_file (snd (update_product_slug d rid new_slug)))).
Proof.
  intros H. destruct (update_success_written d rid new_slug H) as (Hex & Hw & _).
  rewrite (update_known d rid new_slug Hex), save_products_result.
  cbn [snd data_file]. rewrite Hw. fold (has_id rid).
  assert (Hk : forall p, In p (assign_slug (has_id rid) new_slug (load_products d)) ->
                 keeps_row p = true).
  { apply forallb_forall, keeps_row_assign, load_products_all_keep. }
  split; [apply List.length_map|]. split; [exact Hk|].
  intros p _ Hp Hin. rewrite (Hk p Hin) in Hp. discriminate.
Qed.

Lemma update_rewrites_loaded_rows_witness :
  fst (update_product_slug
         (stored [product_with_slug "" "lost"; product_with_slug "p1" "shoes"])
         "p1" "boots") = true
  /\ In (product_with_slug "" "lost")
        (data_file (stored [product_with_slug "" "lost"; product_with_slug "p1" "shoes"]))
  /\ keeps_row (product_with_slug "" "lost") = false
  /\ ~ In (product_with_slug "" "lost")
         (data_file (snd (update_product_slug
            (stored [product_with_slug "" "lost"; product_with_slug "p1" "shoes"])
            "p1" "boots"))).
Proof.
  assert (H : fst (update_product_slug
              (stored [product_with_slug "" "lost"; product_with_slug "p1" "shoes"])
              "p1" "boots") = true) by reflexivity.
  assert (Hin : In (product_with_slug "" "lost")
              (data_file (stored [product_with_slug "" "lost"; product_with_slug "p1" "shoes"]))) by (left; reflexivity).
  assert (Hk : keeps_row (product_with_slug "" "lost") = false) by reflexivity.
  refine (conj H (conj Hin (conj Hk _))).
  exact (proj2 (proj2 (update_rewrites_loaded_rows _ "p1" "boots" H)) _ Hin Hk).
Defined.

(** X21. Backups are named by the second.  When two updates of known
    products follow each other and the clock reads the same second at
    both, the first update makes the copy of the file as it was, and the
    second puts the file as the first update left it in the place of
    that copy: the backups are the same otherwise, and the copy of the
    file as it was before the first update is lost. *)
Theorem backups_same_second (d : Disk) (rid1 slug1 rid2 slug2 : string) :
  (exists p, In p (load_products d) /\ record_id p = rid1) ->
  (exists p, In p (load_products (snd (update_product_slug d rid1 slug1)))
             /\ record_id p = rid2) ->
  clock d (S (clock_reads d)) = clock d (clock_reads d) ->
  backups (snd (update_product_slug d rid1 slug1))
  = (backup_filename (clock d (clock_reads d)), data_file d)
    :: firstn 9 (other_backups (backup_filename (clock d (clock_reads d))) (backups d))
  /\ backups (snd (update_product_slug (snd (update_product_slug d rid1 slug1))
                                       rid2 slug2))
     = (backup_filename (clock d (clock_reads d)),
        data_file (snd (update_product_slug d rid1 slug1)))
       :: firstn 9 (other_backups (backup_filename (clock d (clock_reads d)))
                                  (backups d)).
Proof.
  intros H1 H2 Hc.
  rewrite (update_known _ rid2 slug2 H2), save_products_result.
  rewrite (update_known d rid1 slug1 H1), save_products_result.
  cbn [snd backups create_backup clock clock_reads data_file].
  rewrite Hc.
  change ("products_backup_" ++ clock d (clock_reads d) ++ ".csv")
    with (backup_filename (clock d (clock_reads d))).
  set (name := backup_filename (clock d (clock_reads d))).
  fold (other_backups name (backups d)).
  split; [reflexivity|].
  cbn [firstn List.filter fst]. rewrite String.eqb_refl. cbn [negb firstn].
  fold (other_backups name (firstn 9 (other_backups name (backups d)))).
  rewrite other_backups_firstn, firstn_firstn. reflexivity.
Qed.

Lemma backups_same_second_witness :
  (exists p, In p (load_products disk_stopped_clock) /\ record_id p = "1")
  /\ (exists p, In p (load_products
                        (snd (update_product_slug disk_stopped_clock "1" "boots")))
                /\ record_id p = "2")
  /\ clock disk_stopped_clock (S (clock_reads disk_stopped_clock))
     = clock disk_stopped_clock (clock_reads disk_stopped_clock)
  /\ backups (snd (update_product_slug disk_stopped_clock "1" "boots"))
     = [("products_backup_20240101_100000.csv",
         [product_with_slug "1" "shoes"; product_with_slug "2" "shoes-2"])]
  /\ backups (snd (update_product_slug
                     (snd (update_product_slug disk_stopped_clock "1" "boots"))
                     "2" "sandals"))
     = [("products_backup_20240101_100000.csv",
         [product_with_slug "1" "boots"; product_with_slug "2" "shoes-2"])].
Proof.
  assert (H1 : exists p, In p (load_products disk_stopped_clock) /\ record_id p = "1").
  { exists (product_with_slug "1" "shoes"). split; [left; reflexivity|reflexivity]. }
  assert (H2 : exists p,
             In p (load_products
                     (snd (update_product_slug disk_stopped_clock "1" "boots")))
             /\ record_id p = "2").
  { exists (product_with_slug "2" "shoes-2").
    split; [right; left; reflexivity|reflexivity]. }
  assert (Hc : clock disk_stopped_clock (S (clock_reads disk_stopped_clock))
               = clock disk_stopped_clock (clock_reads disk_stopped_clock))
    by reflexivity.
  refine (conj H1 (conj H2 (conj Hc _))).
  exact (backups_same_second disk_stopped_clock "1" "boots" "2" "sandals" H1 H2 Hc).
Defined.

(** X22. The validator accepts the slugs "null" and "nan", and
    [read_csv] reads these texts as missing values: after a successful
    update with such a slug, the product is in the table that is read
    next, and has no slug there. *)
Theorem missing_value_slug_lost (d : Disk) (rid new_slug : string) :
  fst (update_product_slug d rid new_slug) = true ->
  is_na new_slug = true ->
  fst (validate_slug "null") = true
  /\ fst (validate_slug "nan") = true
  /\ (exists p, In p (load_products (snd (update_product_slug d rid new_slug)))
                /\ record_id p = rid)
  /\ forall p, In p (load_products (snd (update_product_slug d rid new_slug))) ->
       record_id p = rid -> URL_Slug p = None.
Proof.
  intros H Hna. split; [reflexivity|]. split; [reflexivity|].
  destruct (update_success_written d rid new_slug H) as ((q & Hq & Hid) & _ & Hfile).
  split.
  { exists (read_row (set_slug q new_slug)).
    pose proof (loaded_id_not_na d q Hq) as Hq_id.
    assert (Hrow : record_id (read_row (set_slug q new_slug)) = record_id q)
      by (cbn [read_row set_slug record_id]; rewrite Hq_id; reflexivity).
    split; [|rewrite Hrow; exact Hid].
    unfold load_products at 1. rewrite Hfile. apply filter_In. split.
    - apply in_map, in_map_iff. exists q. split; [|exact Hq].
      unfold has_id. rewrite Hid, String.eqb_refl. reflexivity.
    - unfold keeps_row. rewrite Hrow.
      apply (load_products_keeps d q Hq). }
  intros p Hin Hrid.
  unfold load_products in Hin at 1. rewrite Hfile in Hin.
  apply filter_In in Hin as [Hin Hk].
  apply in_map_iff in Hin as (q1 & <- & Hq1).
  apply in_map_iff in Hq1 as (q0 & <- & _).
  destruct (has_id rid q0) eqn:E.
  - cbn [read_row URL_Slug set_slug read_cell]. rewrite Hna. reflexivity.
  - exfalso. unfold has_id in E. apply String.eqb_neq in E. apply E.
    unfold keeps_row in Hk. cbn [read_row record_id] in Hk, Hrid.
    destruct (is_na (record_id q0)); [discriminate Hk|exact Hrid].
Qed.

Lemma missing_value_slug_lost_witness :
  fst (update_product_slug disk_shoes "1" "null") = true
  /\ is_na "null" = true
  /\ fst (validate_slug "null") = true
  /\ fst (validate_slug "nan") = true
  /\ (exists p, In p (load_products (snd (update_product_slug disk_shoes "1" "null")))
                /\ record_id p = "1")
  /\ forall p, In p (load_products (snd (update_product_slug disk_shoes "1" "null"))) ->
       record_id p = "1" -> URL_Slug p = None.
Proof.
  assert (H : fst (update_product_slug disk_shoes "1" "null") = true) by reflexivity.
  assert (Hna : is_na "null" = true) by reflexivity.
  refine (conj H (conj Hna _)).
  exact (missing_value_slug_lost disk_shoes "1" "null" H Hna).
Defined.

(** X23. While the column 'URL Slug' of the file holds no text (no
    product has a slug yet, or every slug is read as a number or as a
    boolean), every slug is reported as taken: a name whose normal form
    has three characters or more gets the date fallback as suggestion,
    and a bulk item with a product id and a valid slug is reported as
    "Slug already exists" and leaves the store as it was. *)
Theorem no_text_column_blocks_slugs (d : Disk) (mmdd name rid new_slug : string) :
  slug_column_is_text (data_file d) = false ->
  (forall slug ex, check_slug_availability d slug ex = false)
  /\ (3 <= String.length (clean_slug name) ->
      suggest_slug d mmdd (Some name) = clean_slug name ++ "-" ++ mmdd)
  /\ (rid <> "" -> fst (validate_slug new_slug) = true ->
      update_one d (mkUpdate (Some rid) (Some new_slug))
      = (mkResult (Some rid) false (Some err_taken), d)).
Proof.
  intros Htext.
  assert (Hall : forall slug ex, check_slug_availability d slug ex = false)
    by (intros slug ex; apply check_slug_uniqueness_not_text, Htext).
  split; [exact Hall|]. split.
  - intros Hlen. rewrite suggest_slug_unfold. cbv zeta.
    apply Nat.ltb_ge in Hlen. rewrite Hlen. unfold free. rewrite Hall.
    assert (Hnone : forall numbers,
               try_numbers d (clean_slug name) numbers = None).
    { induction numbers as [|i rest IH]; [reflexivity|].
      cbn [try_numbers]. rewrite Hall. exact IH. }
    rewrite Hnone. reflexivity.
  - intros Hrid Hvalid. unfold update_one. cbn [u_record_id u_new_slug truthy].
    destruct rid as [|c r]; [congruence|].
    destruct new_slug as [|c2 r2]; [discriminate Hvalid|].
    cbn [is_empty negb orb].
    destruct (validate_slug (String c2 r2)) as [v m]. cbn [fst] in Hvalid.
    subst v. cbn [negb]. rewrite Hall. reflexivity.
Qed.

Lemma no_text_column_blocks_slugs_witness :
  slug_column_is_text (data_file disk_no_slugs) = false
  /\ 3 <= String.length (clean_slug "Hat Box")
  /\ "1" <> ""
  /\ fst (validate_slug "hat-box") = true
  /\ suggest_slug disk_no_slugs "1104" (Some "Hat Box") = "hat-box-1104"
  /\ update_one disk_no_slugs (mkUpdate (Some "1") (Some "hat-box"))
     = (mkResult (Some "1") false (Some "Slug already exists"), disk_no_slugs).
Proof.
  assert (Htext : slug_column_is_text (data_file disk_no_slugs) = false) by reflexivity.
  assert (Hlen : 3 <= String.length (clean_slug "Hat Box")) by (vm_compute; lia).
  assert (Hrid : "1" <> "") by discriminate.
  assert (Hvalid : fst (validate_slug "hat-box") = true) by reflexivity.
  refine (conj Htext (conj Hlen (conj Hrid (conj Hvalid (conj _ _))))).
  - exact (proj1 (proj2 (no_text_column_blocks_slugs
                           disk_no_slugs "1104" "Hat Box" "1" "hat-box" Htext)) Hlen).
  - exact (proj2 (proj2 (no_text_column_blocks_slugs
                           disk_no_slugs "1104" "Hat Box" "1" "hat-box" Htext))
                 Hrid Hvalid).
Defined.
